(** * Anchor matching and instance padding of [yolo/dataloaders/preprocessing_ops.py]

    A shallow embedding of [pad_max_instances] and [get_best_anchor].

    Conventions of the embedding.
    - A tensor of rank one is a [list]; a tensor of rank two is a list of
      rows.  Where TensorFlow reads a dimension with [tf.shape] that a list
      of rows cannot show (the number of columns of a tensor with no row),
      the dimension is passed explicitly.
    - float32 scalars are rationals ([Q]): comparison and exact arithmetic,
      no rounding and no non-finite value.  The literal [0.213] is
      [213 # 1000].  Counts and anchor indices are integers ([Z]); the
      counts the source keeps in float32 are exact there.
    - The first dimension of a tensor, which [tf.shape] gives as an int32,
      is the length of the list.  A Python integer that is compared with it
      or subtracted from it is converted to int32 and wraps around
      ([to_int32]).
    - TensorFlow calls that can raise ([tf.math.top_k]) return a [result]. *)

From Stdlib Require Import List ZArith QArith Qminmax Lia Bool Permutation Sorted.
From Stdlib Require String Ascii DecimalString DecimalZ DecimalPos.
Import ListNotations.

Set Implicit Arguments.

(** ** Python slicing *)

Section Slicing.
Variable T : Type.

(** [value[:stop]] on the first axis: a negative [stop] counts from the end,
    and both cases clamp to the bounds of the sequence. *)
Definition slice_to (value : list T) (stop : Z) : list T :=
  if (stop <? 0)%Z
  then firstn (Z.to_nat (Z.of_nat (length value) + stop)) value
  else firstn (Z.to_nat stop) value.

End Slicing.

(** ** [pad_max_instances] *)

(** The int32 that a Python integer becomes when it meets an int32 tensor:
    an integer from [- 2^31] to [2^31 - 1] is kept, any other wraps
    around. *)
Definition to_int32 (z : Z) : Z :=
  ((z + 2147483648) mod 4294967296 - 2147483648)%Z.

Section PadMaxInstances.
(** [T] is an item of the tensor: the slice [value[i, ...]].  [S] is the
    scalar type and [ones_times p] is the item of [tf.ones(...) * p], the
    item filled with [p] (for a tensor of rank one, [p] itself). *)
Variables T S : Type.
Variable ones_times : S -> T.

(** [dim1] is an int32 tensor: [dim1 > instances] and [instances - dim1]
    are taken with [instances] as an int32, while the slice
    [value[:instances, ...]] takes the Python integer as it is. *)
Definition pad_max_instances (value : list T) (instances : Z) (pad_value : S)
  : list T :=
  let dim1 := Z.of_nat (length value) in
  if (to_int32 instances <? dim1)%Z
  then slice_to value instances
  else
    let pad_tensor :=
      repeat (ones_times pad_value) (Z.to_nat (to_int32 instances - dim1)) in
    value ++ pad_tensor.

End PadMaxInstances.

(** Items of a tensor of rank one, and rows of [cols] scalars. *)
Definition item_scalar {S : Type} (p : S) : S := p.
Definition item_row {S : Type} (cols : nat) (p : S) : list S := repeat p cols.

(** ** Tensor operations used by [get_best_anchor] *)

(** Outcome of a TensorFlow call: a value, or the [InvalidArgumentError] it
    raises. *)
Inductive result (X : Type) : Type :=
| OK (x : X)
| InvalidArgument.
Arguments InvalidArgument {X}.

Section Tensors.
Variables T U V : Type.

Fixpoint zip_with (f : T -> U -> V) (a : list T) (b : list U) : list V :=
  match a, b with
  | x :: a', y :: b' => f x y :: zip_with f a' b'
  | _, _ => []
  end.

End Tensors.

(** [tf.concat([a, b], axis=-1)] on two tensors of rank two with as many
    rows. *)
Definition concat_last {T : Type} (a b : list (list T)) : list (list T) :=
  zip_with (@app T) a b.

(** [tf.transpose(t, perm=[1, 0])] of a tensor of shape [[length t, ncols]]. *)
Fixpoint transpose {T : Type} (ncols : nat) (t : list (list T))
  : list (list T) :=
  match t with
  | [] => repeat [] ncols
  | r :: t' => zip_with cons r (transpose ncols t')
  end.

(** [v > t] on scalars. *)
Definition Qgtb (v t : Q) : bool := negb (Qle_bool v t).

(** The acceptance threshold, the literal [0.213] of the source. *)
Definition threshold : Q := 213 # 1000.

(** [tf.cast(t > 0.213, dtype)]: ones where the entry exceeds the threshold,
    zeros elsewhere. *)
Definition greater_mask (t : list (list Q)) : list (list Z) :=
  map (map (fun v => if Qgtb v threshold then 1%Z else 0%Z)) t.

(** [tf.reduce_sum(t, axis=1)]. *)
Definition reduce_sum_axis1 (t : list (list Z)) : list Z :=
  map (fold_right Z.add 0%Z) t.

(** [tf.reduce_max] of a tensor of rank one.  On no element TensorFlow gives
    the identity of the maximum, minus infinity, which is [None] here. *)
Definition reduce_max (l : list Z) : option Z :=
  fold_right (fun z acc => Some (match acc with
                                 | None => z
                                 | Some m => Z.max z m
                                 end)) None l.

(** *** [tf.math.top_k] *)

(** A row with its column indices. *)
Definition enumerate (row : list Q) : list (Z * Q) :=
  combine (map Z.of_nat (seq 0 (length row))) row.

(** Insertion in a list ranked by descending value.  The new entry goes
    before the entries that equal it, so that building the ranking from the
    right leaves equal values in ascending column order, as [tf.math.top_k]
    documents (on equal elements the lower index appears first). *)
Fixpoint insert_desc (p : Z * Q) (l : list (Z * Q)) : list (Z * Q) :=
  match l with
  | [] => [p]
  | q :: l' => if Qgtb (snd q) (snd p) then q :: insert_desc p l' else p :: l
  end.

Definition sort_desc (l : list (Z * Q)) : list (Z * Q) :=
  fold_right insert_desc [] l.

(** The [k] largest entries of a row with their indices, largest first. *)
Definition top_k_row (k : Z) (row : list Q) : list (Z * Q) :=
  firstn (Z.to_nat k) (sort_desc (enumerate row)).

(** [tf.math.top_k(input, k, sorted=True)] on a tensor of shape
    [[length input, ncols]]: the pair [(values, indices)], or the error
    raised when the rows have fewer than [k] columns. *)
Definition top_k (ncols : nat) (input : list (list Q)) (k : Z)
  : result (list (list Q) * list (list Z)) :=
  if (Z.of_nat ncols <? k)%Z then InvalidArgument
  else OK (map (fun row => map snd (top_k_row k row)) input,
           map (fun row => map fst (top_k_row k row)) input).

(** ** [get_best_anchor], from the overlap matrix on (lines 228 to 265) *)

(** Lines 230 to 233: the width of the ranking. [iou_raw] has shape
    [[A, B]], one row per anchor. *)
Definition num_k_of (B : nat) (iou_raw : list (list Q)) : Z :=
  let gt_mask := greater_mask iou_raw in
  let num_k := reduce_max (reduce_sum_axis1 (transpose B gt_mask)) in
  match num_k with
  | None => 1%Z
  | Some n => if (n <=? 0)%Z then 1%Z else n
  end.

(** Lines 250 to 252: [while num_k < 5], at most [n] turns.  The loop
    counter is returned with the tensor so that the exit can be stated. *)
Fixpoint while_lt_5 (n : nat) (num_k : Z) (iou_index stack : list (list Z))
  : Z * list (list Z) :=
  match n with
  | O => (num_k, iou_index)
  | S n' =>
      if (num_k <? 5)%Z
      then while_lt_5 n' (num_k + 1)%Z (concat_last iou_index stack) stack
      else (num_k, iou_index)
  end.

(** [tf.cast(_, dtype=tf.float32)] of an integer. *)
Definition cast_float32 (z : Z) : Q := inject_Z z.

(** The part of [get_best_anchor] that consumes the overlap matrix
    [iou_raw] of shape [[A, B]].  [indexes[..., 0]] with its last axis
    restored is the first column of [indexes], which has [num_k] columns and
    so at least one.  The tensor [values] rebuilt at lines 255 to 259 is not
    returned and is left out. *)
Definition match_anchors (A B : nat) (iou_raw : list (list Q))
  : result (list (list Q)) :=
  let num_k := num_k_of B iou_raw in
  match top_k A (transpose B iou_raw) num_k with
  | InvalidArgument => InvalidArgument
  | OK (values, indexes) =>
      let ind_mask := greater_mask values in
      let iou_index :=
        concat_last
          (map (firstn 1) indexes)
          (zip_with (zip_with (fun i m => ((i + 1) * m - 1)%Z))
                    (map (skipn 1) indexes) (map (skipn 1) ind_mask)) in
      let stack := repeat [(0 - 1)%Z] (length iou_index) in
      let iou_index :=
        snd (while_lt_5 (Z.to_nat (5 - num_k)) num_k iou_index stack) in
      let iou_index := map (firstn 5) iou_index in
      OK (map (map cast_float32) iou_index)
  end.

(** ** [get_best_anchor], up to the overlap matrix (lines 196 to 226) *)

(** A row of [y_true[..., 0:4]]: centre, width and height. *)
Record Box : Type := mkBox { cx : Q; cy : Q; bw : Q; bh : Q }.

Section GetBestAnchor.
(** [compute_iou] comes from [yolo.utils.iou_utils]; it is applied to two
    tensors of shape [[A, B, 4]] and gives the overlap of each pair of
    boxes. *)
Variable compute_iou : Box -> Box -> Q.

(** Lines 196 to 226: the overlap matrix, of shape [[A, B]]. *)
Definition iou_raw_of (y_true : list Box) (anchors : list (Q * Q))
  (width height : Q) : list (list Q) :=
  let anchor_xy := map (fun b => (cx b, cy b)) y_true in
  (* scale the boxes *)
  let anchors_xy := map (fun a => (fst a / width, snd a / height)) anchors in
  (* each anchor once with each centre of the ground truth: [A, B, 4] *)
  let anchors_t :=
    map (fun a => map (fun xy => mkBox (fst xy) (snd xy) (fst a) (snd a))
                      anchor_xy) anchors_xy in
  (* the ground truth once per anchor: [A, B, 4] *)
  let truth_comp := repeat y_true (length anchors_t) in
  zip_with (zip_with compute_iou) truth_comp anchors_t.

Definition get_best_anchor (y_true : list Box) (anchors : list (Q * Q))
  (width height : Q) : result (list (list Q)) :=
  let iou_raw := iou_raw_of y_true anchors width height in
  match_anchors (length anchors) (length y_true) iou_raw.

End GetBestAnchor.

(** Modelled from the spec: [compute_iou] of [yolo.utils.iou_utils], which
    is not among the sources.  The overlap is the intersection area over the
    union area, the intersection being
    [min(w_box, w_anchor) * min(h_box, h_anchor)]; a box or an anchor of no
    area has overlap 0. *)
Definition compute_iou_spec (box anchor : Box) : Q :=
  let intersection_area :=
    Qmin (bw box) (bw anchor) * Qmin (bh box) (bh anchor) in
  let area_box := bw box * bh box in
  let area_anchor := bw anchor * bh anchor in
  if Qeq_bool area_box 0 || Qeq_bool area_anchor 0 then 0
  else intersection_area / (area_box + area_anchor - intersection_area).

(** ** The matcher as the specification words it *)

(** The number of anchors whose overlap with a box exceeds the threshold. *)
Definition accepted_count (row : list Q) : Z :=
  Z.of_nat (length (filter (fun v => Qgtb v threshold) row)).

(** The largest accepted count of the boxes passed together, at least 1. *)
Definition batch_k (overlap : list (list Q)) : Z :=
  Z.max 1 (fold_right Z.max 0%Z (map accepted_count overlap)).

(** The [k] best anchors of a box: the best one, then the next ones where
    their overlap exceeds the threshold and the sentinel elsewhere. *)
Definition ranked_slots (k : Z) (row : list Q) : list Z :=
  match top_k_row k row with
  | [] => []
  | best :: rest =>
      fst best
      :: map (fun p => if Qgtb (snd p) threshold then fst p else (-1)%Z) rest
  end.

(** Exactly five slots: the sentinel after a short list, the first five of
    a long one. *)
Definition five_slots (l : list Z) : list Z :=
  firstn 5 (l ++ repeat (-1)%Z (5 - length l)).

Definition assignment (k : Z) (row : list Q) : list Q :=
  map cast_float32 (five_slots (ranked_slots k row)).

(** The shape [[A, B]] of an overlap matrix. *)
Definition has_shape {T : Type} (A B : nat) (t : list (list T)) : Prop :=
  length t = A /\ Forall (fun r => length r = B) t.

(** The sentinel as it is returned, and the number of slots of an
    assignment that hold an anchor. *)
Definition sentinel : Q := cast_float32 (-1).

Definition is_sentinel (q : Q) : bool := Qeq_bool q sentinel.

Definition non_sentinel_count (slots : list Q) : Z :=
  Z.of_nat (length (filter (fun q => negb (is_sentinel q)) slots)).

(** ** Ranking, for the statements *)

(** [before p q]: [p] is ranked before [q], by larger value, and by lower
    column on equal values. *)
Definition before (p q : Z * Q) : Prop :=
  snd q < snd p \/ (snd q == snd p /\ (fst p < fst q)%Z).

(** An entry whose overlap exceeds the threshold. *)
Definition accepted (p : Z * Q) : bool := Qgtb (snd p) threshold.

(** The ranking of a row: all its columns, largest overlap first. *)
Definition ranking (row : list Q) : list (Z * Q) := sort_desc (enumerate row).

(** The accepted entries of a ranking, and the index an entry leaves in an
    assignment after the first slot. *)
Definition count_accepted (l : list (Z * Q)) : nat :=
  length (filter accepted l).

Definition mask_index (p : Z * Q) : Z :=
  if accepted p then fst p else (-1)%Z.

(** The overlap of anchor [a] and box [b] in a matrix of shape [[A, B]]. *)
Definition iou_at (iou_raw : list (list Q)) (a b : nat) : Q :=
  nth b (nth a iou_raw []) 0.

(** The five slots of a row read off its ranking: as many best columns as
    accepted entries, at least one and at most five, then the sentinel. *)
Definition slots_of_ranking (row : list Q) : list Q :=
  let m := Nat.min (Nat.max 1 (count_accepted (ranking row))) 5 in
  map cast_float32 (firstn m (map fst (ranking row)) ++ repeat (-1)%Z (5 - m)).

(** ** Inputs of the examples *)

(** Three anchors and two boxes: the first box has three accepted anchors,
    the second none. *)
Definition iou_3x2 : list (list Q) :=
  [[1 # 2; 1 # 10]; [3 # 10; 1 # 10]; [1 # 2; 1 # 5]].

Definition rows_3x2 : list (list Q) :=
  [[0; 2; 1; -1; -1]; [2; -1; -1; -1; -1]].

(** Six anchors, all accepted by the one box. *)
Definition iou_6x1 : list (list Q) :=
  [[1 # 2]; [1 # 2]; [6 # 10]; [1 # 2]; [1 # 2]; [1 # 2]].

(** Two anchors and one box, which accepts the first anchor only. *)
Definition iou_2x1 : list (list Q) := [[1 # 2]; [1 # 10]].

(** The scenario of the specification: three anchors at the reference
    resolution 416 x 416, and one box of 0.05 x 0.07; the same box at
    another centre. *)
Definition anchors_3 : list (Q * Q) := [(10, 13); (16, 30); (33, 23)].
Definition box_centre : Box := mkBox (1 # 2) (1 # 2) (5 # 100) (7 # 100).
Definition box_corner : Box := mkBox (1 # 10) (9 # 10) (5 # 100) (7 # 100).
Definition box_origin : Box := mkBox 0 0 (5 # 100) (7 # 100).

(** An overlap that reads the centres: the overlap of the specification for
    two boxes at one centre, and 0 for two boxes apart. *)
Definition iou_at_one_centre (box anchor : Box) : Q :=
  if Qeq_bool (cx box) (cx anchor) && Qeq_bool (cy box) (cy anchor)
  then compute_iou_spec box anchor
  else 0.

(** ** [translate_boxes], [translate_image] and [random_translate] *)

(** The centres move by the two offsets; widths and heights are kept. *)
Definition translate_boxes (box : list Box) (translate_x translate_y : Q)
  : list Box :=
  map (fun b => mkBox (cx b + translate_x) (cy b + translate_y) (bw b) (bh b))
      box.

Section TranslateImage.
(** An image is kept abstract: [shape_1 image] is
    [tf.cast(tf.shape(image)[1], tf.float32)] and [tfa_image_translate] is
    [tfa.image.translate]. *)
Variable Image : Type.
Variable shape_1 : Image -> Q.
Variable tfa_image_translate : Image -> Q * Q -> Image.

Definition translate_image (image : Image) (translate_x translate_y : Q)
  : Image :=
  if negb (Qeq_bool translate_x 0) && negb (Qeq_bool translate_y 0)
  then
    let image_jitter := (translate_x, translate_y) in
    tfa_image_translate image (fst image_jitter * shape_1 image,
                               snd image_jitter * shape_1 image)
  else image.

(** [random_translate], given its two draws [t_x] and [t_y] of
    [tf.random.uniform]. *)
Definition random_translate (image : Image) (box : list Box) (t_x t_y : Q)
  : Image * list Box :=
  let box := translate_boxes box t_x t_y in
  let image := translate_image image t_x t_y in
  (image, box).

End TranslateImage.

(** ** Python strings and dictionaries *)

Module Py.
Import String Ascii.
Local Open Scope string_scope.

(** What a call gives: a value, or the exception it raises. *)
Inductive outcome (X : Type) : Type :=
| Returns (x : X)
| ValueError
| KeyError.
Arguments Returns {X} x.
Arguments ValueError {X}.
Arguments KeyError {X}.

(** A loop that appends [f x] for each [x], up to the first exception. *)
Fixpoint traverse {X Y : Type} (f : X -> outcome Y) (l : list X)
  : outcome (list Y) :=
  match l with
  | [] => Returns []
  | x :: l' =>
      match f x with
      | Returns y =>
          match traverse f l' with
          | Returns ys => Returns (y :: ys)
          | ValueError => ValueError
          | KeyError => KeyError
          end
      | ValueError => ValueError
      | KeyError => KeyError
      end
  end.

(** The ASCII characters that [str.strip] and [int] take for whitespace. *)
Definition is_space (c : ascii) : bool :=
  let n := nat_of_ascii c in
  ((9 <=? n) && (n <=? 13) || (28 <=? n) && (n <=? 32))%nat.

Fixpoint lstrip (s : string) : string :=
  match s with
  | EmptyString => EmptyString
  | String c s' => if is_space c then lstrip s' else s
  end.

Fixpoint rstrip (s : string) : string :=
  match s with
  | EmptyString => EmptyString
  | String c s' =>
      match rstrip s' with
      | EmptyString => if is_space c then EmptyString else String c EmptyString
      | r => String c r
      end
  end.

(** [s.strip()]. *)
Definition strip (s : string) : string := rstrip (lstrip s).

(** [s.split(sep)] for a separator of one character. *)
Fixpoint split (sep : ascii) (s : string) : list string :=
  match s with
  | EmptyString => [EmptyString]
  | String c s' =>
      if Ascii.eqb c sep then EmptyString :: split sep s'
      else match split sep s' with
           | [] => [String c EmptyString]
           | piece :: pieces => String c piece :: pieces
           end
  end.

(** [repr] of an integer: its decimal digits, after a minus sign when it is
    negative. *)
Definition repr_int (z : Z) : string :=
  DecimalString.NilZero.string_of_int (Z.to_int z).

(** [str] of a list of integers. *)
Definition str_list (l : list Z) : string :=
  "[" ++ concat ", " (map repr_int l) ++ "]".

(** [s[1:-1]]. *)
Definition slice_1_minus_1 (s : string) : string :=
  substring 1 (length s - 2) s.

(** The digits of a literal, without the underscores that [int] allows
    between two digits. *)
Fixpoint drop_underscores (after_digit : bool) (s : string) : option string :=
  match s with
  | EmptyString => if after_digit then Some EmptyString else None
  | String c s' =>
      if Ascii.eqb c "_"
      then if after_digit then drop_underscores false s' else None
      else option_map (String c) (drop_underscores true s')
  end.

Definition int_digits (s : string) : option Z :=
  match drop_underscores false s with
  | None => None
  | Some t => option_map Z.of_uint (DecimalString.NilEmpty.uint_of_string t)
  end.

(** [int(s)] in base ten: whitespace around, a sign, digits. *)
Definition int (s : string) : outcome Z :=
  let parsed :=
    match strip s with
    | EmptyString => None
    | String c s' =>
        if Ascii.eqb c "-" then option_map Z.opp (int_digits s')
        else if Ascii.eqb c "+" then int_digits s'
        else int_digits (String c s')
    end in
  match parsed with
  | Some z => Returns z
  | None => ValueError
  end.

(** A dictionary, its keys in insertion order. *)
Definition dict (V : Type) : Type := list (string * V).

(** [d.pop(k)]: the dictionary without the key, [KeyError] when it is not
    there. *)
Fixpoint dict_pop {V : Type} (k : string) (d : dict V) : outcome (dict V) :=
  match d with
  | [] => KeyError
  | (k', v) :: d' =>
      if String.eqb k k' then Returns d'
      else match dict_pop k d' with
           | Returns r => Returns ((k', v) :: r)
           | ValueError => ValueError
           | KeyError => KeyError
           end
  end.

(** [for k in keys: d.pop(k)]. *)
Fixpoint pop_each {V : Type} (keys : list string) (d : dict V)
  : outcome (dict V) :=
  match keys with
  | [] => Returns d
  | k :: keys' =>
      match dict_pop k d with
      | Returns d' => pop_each keys' d'
      | ValueError => ValueError
      | KeyError => KeyError
      end
  end.

(** All the characters of a string pass a test. *)
Fixpoint all_chars (test : ascii -> bool) (s : string) : bool :=
  match s with
  | EmptyString => true
  | String c s' => test c && all_chars test s'
  end.

Definition is_numeric (c : ascii) : bool :=
  let n := nat_of_ascii c in
  ((48 <=? n) && (n <=? 57) || (n =? 45))%nat.

End Py.

(** ** [yolo/configs/yolo.py] *)

Module YoloConfigs.
Import String Ascii Py.
Local Open Scope string_scope.

(** The setter of [AnchorCFG.boxes] (the body of [Yolo.set_boxes] is the
    same), on boxes of integers: the value stored in [_boxes]. *)
Definition AnchorCFG_boxes_setter (box_list : list (list Z)) : list string :=
  map (fun value => let value := str_list value in slice_1_minus_1 value)
      box_list.

(** The getter of [AnchorCFG.boxes], on the value stored in [_boxes]. *)
Definition AnchorCFG_boxes (_boxes : list string) : outcome (list (list Z)) :=
  traverse (fun box => traverse (fun b => int (strip b)) (split "," box))
           _boxes.

Definition popped_keys : list string :=
  ["_boxes"; "backbone"; "head"; "decoder"; "filter"].

(** [ModelConfig.get_build_model_dict], from the dictionary [model_kwargs]
    that [model_cfg.as_dict()] gives. *)
Definition get_build_model_dict {V : Type} (model_kwargs : dict V)
  : outcome (dict V) :=
  pop_each popped_keys model_kwargs.

(** The entry stays when its key is none of [keys]. *)
Definition key_not_in {V : Type} (keys : list string) (entry : string * V)
  : bool :=
  negb (existsb (String.eqb (fst entry)) keys).

End YoloConfigs.

(** * Properties *)

(** ** The instance padder *)

Section PadMaxInstancesFacts.
Variables T S : Type.
Variable ones_times : S -> T.

Lemma to_int32_range (z : Z) :
  (-2147483648 <= to_int32 z < 2147483648)%Z.
Proof.
  unfold to_int32.
  pose proof (Z.mod_pos_bound (z + 2147483648) 4294967296). lia.
Qed.

Lemma to_int32_small (z : Z) :
  (-2147483648 <= z < 2147483648)%Z -> to_int32 z = z.
Proof.
  intros H. unfold to_int32. rewrite Z.mod_small by lia. lia.
Qed.

Lemma to_int32_le (z : Z) : (0 <= z)%Z -> (to_int32 z <= z)%Z.
Proof.
  intros H. destruct (Z.lt_ge_cases z 2147483648) as [Hlt | Hge].
  - rewrite to_int32_small by lia. lia.
  - pose proof (to_int32_range z). lia.
Qed.

Lemma slice_to_nonneg (value : list T) (stop : Z) :
  (0 <= stop)%Z -> slice_to value stop = firstn (Z.to_nat stop) value.
Proof.
  intros H. unfold slice_to.
  destruct (Z.ltb_spec stop 0); [lia | reflexivity].
Qed.

Lemma pad_longer (value : list T) (instances : Z) (p : S) :
  (0 <= instances < Z.of_nat (length value))%Z ->
  pad_max_instances ones_times value instances p = firstn (Z.to_nat instances) value.
Proof.
  intros [H0 H1]. unfold pad_max_instances.
  pose proof (to_int32_le H0) as Hle.
  destruct (Z.ltb_spec (to_int32 instances) (Z.of_nat (length value)));
    [| lia].
  now apply slice_to_nonneg.
Qed.

Lemma pad_shorter (value : list T) (instances : Z) (p : S) :
  (Z.of_nat (length value) <= instances < 2147483648)%Z ->
  pad_max_instances ones_times value instances p =
  value ++ repeat (ones_times p)
                  (Z.to_nat (instances - Z.of_nat (length value))).
Proof.
  intros H. unfold pad_max_instances. rewrite to_int32_small by lia.
  destruct (Z.ltb_spec instances (Z.of_nat (length value))); [lia | reflexivity].
Qed.

Lemma pad_length (value : list T) (instances : Z) (p : S) :
  (0 <= instances < 2147483648)%Z ->
  length (pad_max_instances ones_times value instances p) = Z.to_nat instances.
Proof.
  intros H.
  destruct (Z.lt_ge_cases instances (Z.of_nat (length value))) as [Hlt | Hge].
  - rewrite pad_longer by lia. rewrite length_firstn. lia.
  - rewrite pad_shorter by lia. rewrite length_app, repeat_length. lia.
Qed.

(** Cutting at the length of [value] whatever follows it. *)
Lemma pad_cut (value rest : list T) (p : S) :
  pad_max_instances ones_times (value ++ rest)
                    (Z.of_nat (length value)) p = value.
Proof.
  unfold pad_max_instances. rewrite length_app.
  pose proof (to_int32_le (Nat2Z.is_nonneg (length value))) as Hle.
  destruct (Z.ltb_spec (to_int32 (Z.of_nat (length value)))
                       (Z.of_nat (length value + length rest))) as [Hlt | Hge].
  - rewrite slice_to_nonneg by lia. rewrite Nat2Z.id.
    rewrite firstn_app, firstn_all, Nat.sub_diag. simpl. apply app_nil_r.
  - assert (Hrest : length rest = 0%nat) by lia.
    destruct rest; [| discriminate].
    replace (to_int32 (Z.of_nat (length value))
             - Z.of_nat (length value + length (@nil T)))%Z with 0%Z
      by (simpl length in *; lia).
    simpl. now rewrite !app_nil_r.
Qed.

Lemma pad_exact (value : list T) (instances : Z) (p : S) :
  Z.of_nat (length value) = instances ->
  pad_max_instances ones_times value instances p = value.
Proof.
  intros <-. rewrite <- (app_nil_r value) at 1. apply pad_cut.
Qed.

(** The result of padding to a count that is not less than the length
    starts with the input. *)
Lemma pad_prefix (value : list T) (instances : Z) (p : S) :
  (Z.of_nat (length value) <= instances)%Z ->
  exists rest, pad_max_instances ones_times value instances p = value ++ rest.
Proof.
  intros H. unfold pad_max_instances.
  destruct (Z.ltb_spec (to_int32 instances) (Z.of_nat (length value))).
  - exists []. rewrite slice_to_nonneg by lia.
    rewrite firstn_all2 by lia. now rewrite app_nil_r.
  - eexists. reflexivity.
Qed.

(** C6: for a positive [instances] (an int32) the result has exactly
    [instances] items; a longer input keeps its first [instances] items, in
    order, and a shorter one is followed by [instances - length] copies of
    the pad item. *)
Theorem pad_max_instances_length_exact (value : list T) (instances : Z)
  (p : S) (Hpos : (0 < instances < 2147483648)%Z) :
  length (pad_max_instances ones_times value instances p) = Z.to_nat instances /\
  ((instances < Z.of_nat (length value))%Z ->
   pad_max_instances ones_times value instances p = firstn (Z.to_nat instances) value /\
   value = pad_max_instances ones_times value instances p ++ skipn (Z.to_nat instances) value) /\
  ((Z.of_nat (length value) < instances)%Z ->
   pad_max_instances ones_times value instances p =
   value ++ repeat (ones_times p) (Z.to_nat instances - length value)).
Proof.
  split; [apply pad_length; lia |]. split; intros H.
  - rewrite pad_longer by lia. split; [reflexivity |].
    symmetry. apply firstn_skipn.
  - rewrite pad_shorter by lia. do 2 f_equal. lia.
Qed.

(** C9: an input of [instances] items is returned as it is, and padding it
    twice is padding it once. *)
Theorem pad_max_instances_idempotent (value : list T) (instances : Z) (p : S)
  (Hlen : Z.of_nat (length value) = instances) :
  pad_max_instances ones_times value instances p = value /\
  pad_max_instances ones_times (pad_max_instances ones_times value instances p) instances p = pad_max_instances ones_times value instances p.
Proof.
  rewrite !pad_exact; auto. 
Qed.

(** Padding twice is padding once on every input, for a count that is not
    negative. *)
Lemma pad_twice (value : list T) (instances : Z) (p : S) :
  (0 <= instances < 2147483648)%Z ->
  pad_max_instances ones_times (pad_max_instances ones_times value instances p) instances p = pad_max_instances ones_times value instances p.
Proof.
  intros H. apply pad_exact. rewrite pad_length by lia. lia.
Qed.

(** C10: padding [value] to [max_count] and cutting the result back to the
    length of [value] gives [value] again. *)
Theorem pad_then_truncate_roundtrip (value : list T) (max_count : Z)
  (p p' : S) (Hle : (Z.of_nat (length value) <= max_count)%Z) :
  pad_max_instances ones_times (pad_max_instances ones_times value max_count p) (Z.of_nat (length value)) p' = value.
Proof.
  destruct (pad_prefix value p Hle) as [rest ->]. apply pad_cut.
Qed.

End PadMaxInstancesFacts.

(** ** Tensors as lists of rows *)

Section TensorFacts.
Variables T U V W : Type.

Lemma zip_with_length (f : T -> U -> V) (a : list T) (b : list U) :
  length (zip_with f a b) = Nat.min (length a) (length b).
Proof.
  revert b. induction a as [| x a IH]; intros [| y b]; simpl; auto.
Qed.

Lemma zip_with_map (f : T -> U -> V) (g : W -> T) (h : W -> U) (l : list W) :
  zip_with f (map g l) (map h l) = map (fun x => f (g x) (h x)) l.
Proof.
  induction l as [| x l IH]; simpl; [reflexivity | now rewrite IH].
Qed.

Lemma zip_with_repeat_r (f : T -> U -> V) (a : list T) (y : U) :
  zip_with f a (repeat y (length a)) = map (fun x => f x y) a.
Proof.
  induction a as [| x a IH]; simpl; [reflexivity | now rewrite IH].
Qed.

Lemma zip_with_repeat_l (f : T -> U -> V) (x : T) (b : list U) :
  zip_with f (repeat x (length b)) b = map (f x) b.
Proof.
  induction b as [| y b IH]; simpl; [reflexivity | now rewrite IH].
Qed.

Lemma zip_with_map_r (f : T -> U -> V) (g : T -> U) (l : list T) :
  zip_with f l (map g l) = map (fun x => f x (g x)) l.
Proof.
  induction l as [| x l IH]; simpl; [reflexivity | now rewrite IH].
Qed.

End TensorFacts.

Section TransposeFacts.
Variables T U : Type.

Lemma zip_with_map_cons (g : T -> U) (r : list T) (t : list (list T)) :
  zip_with cons (map g r) (map (map g) t) = map (map g) (zip_with cons r t).
Proof.
  revert t. induction r as [| x r IH]; intros [| y t]; simpl; auto.
  now rewrite IH.
Qed.

Lemma transpose_map (g : T -> U) (ncols : nat) (t : list (list T)) :
  transpose ncols (map (map g) t) = map (map g) (transpose ncols t).
Proof.
  induction t as [| r t IH]; simpl.
  - induction ncols; simpl; congruence.
  - rewrite IH. apply zip_with_map_cons.
Qed.

Lemma zip_with_cons_lengths (n : nat) (r : list T) (cs : list (list T)) :
  Forall (fun c => length c = n) cs ->
  Forall (fun c => length c = Datatypes.S n) (zip_with cons r cs).
Proof.
  intros H. revert r.
  induction H as [| c cs Hc Hcs IH]; intros [| x r]; simpl; constructor;
    simpl; auto.
Qed.

Lemma transpose_shape (A B : nat) (t : list (list T)) :
  has_shape A B t -> has_shape B A (transpose B t).
Proof.
  intros [Hlen Hrows]. subst A. induction Hrows as [| r t Hr Hrows IH]; simpl.
  - split; [apply repeat_length |].
    apply Forall_forall. intros x Hx. now apply repeat_spec in Hx; subst.
  - destruct IH as [IHlen IHrows]. split.
    + rewrite zip_with_length. lia.
    + now apply zip_with_cons_lengths.
Qed.

(** The entry of column [i] in row [j] of [t] is the entry of column [j] in
    row [i] of its transpose. *)
Lemma transpose_nth (d : T) (A B : nat) (t : list (list T)) (i j : nat) :
  has_shape A B t -> (i < B)%nat -> (j < A)%nat ->
  nth j (nth i (transpose B t) []) d = nth i (nth j t []) d.
Proof.
  intros [Hlen Hrows]. subst A. revert i j.
  induction Hrows as [| r t Hr Hrows IH]; intros i j Hi Hj; simpl in *.
  - lia.
  - assert (Hsh : has_shape B (length t) (transpose B t))
      by (apply transpose_shape; split; auto).
    destruct Hsh as [Hl _].
    assert (Hz : forall (a : list T) (b : list (list T)) n,
               length a = length b -> (n < length a)%nat ->
               nth n (zip_with cons a b) [] = nth n a d :: nth n b []).
    { clear. induction a as [| x a IH]; intros [| y b] n Hab Hn;
        simpl in *; try lia.
      destruct n; [reflexivity | apply IH; lia]. }
    rewrite Hz by lia.
    destruct j; simpl; [reflexivity | apply IH; lia].
Qed.

End TransposeFacts.

(** ** Ranking by descending overlap *)

Lemma Qgtb_true (v t : Q) : Qgtb v t = true <-> t < v.
Proof.
  unfold Qgtb. rewrite negb_true_iff. split; intros H.
  - apply Qnot_le_lt. intros Hle. apply Qle_bool_iff in Hle. congruence.
  - destruct (Qle_bool v t) eqn:E; [| reflexivity].
    apply Qle_bool_iff in E. exfalso. now apply (Qlt_not_le t v).
Qed.

Lemma Qgtb_false (v t : Q) : Qgtb v t = false <-> v <= t.
Proof.
  unfold Qgtb. rewrite negb_false_iff. apply Qle_bool_iff.
Qed.

Lemma before_le (p q : Z * Q) : before p q -> snd q <= snd p.
Proof.
  intros [H | [H _]]; [now apply Qlt_le_weak | rewrite H; apply Qle_refl].
Qed.

Lemma insert_desc_perm (p : Z * Q) (l : list (Z * Q)) :
  Permutation (insert_desc p l) (p :: l).
Proof.
  induction l as [| q l IH]; simpl; [reflexivity |].
  destruct (Qgtb (snd q) (snd p)); [| reflexivity].
  rewrite IH. apply perm_swap.
Qed.

Lemma sort_desc_perm (l : list (Z * Q)) : Permutation (sort_desc l) l.
Proof.
  induction l as [| p l IH]; simpl; [reflexivity |].
  rewrite insert_desc_perm. now constructor.
Qed.

Lemma sort_desc_length (l : list (Z * Q)) : length (sort_desc l) = length l.
Proof. apply Permutation_length, sort_desc_perm. Qed.

Lemma insert_desc_sorted (p : Z * Q) (l : list (Z * Q)) :
  StronglySorted before l ->
  Forall (fun q => (fst p < fst q)%Z) l ->
  StronglySorted before (insert_desc p l).
Proof.
  induction 1 as [| q l Hs IH Hq]; intros Hp; simpl.
  - constructor; constructor.
  - inversion Hp as [| ? ? Hpq Hpl]; subst.
    destruct (Qgtb (snd q) (snd p)) eqn:E.
    + apply Qgtb_true in E. constructor; [now apply IH |].
      rewrite insert_desc_perm. constructor; [now left | assumption].
    + apply Qgtb_false in E. constructor; [now constructor |].
      assert (Hall : forall x, In x (q :: l) -> before p x).
      { intros x Hx.
        assert (Hxq : snd x <= snd q).
        { destruct Hx as [<- | Hx]; [apply Qle_refl |].
          apply before_le. rewrite Forall_forall in Hq. now apply Hq. }
        assert (Hxp : snd x <= snd p) by (eapply Qle_trans; eauto).
        destruct (Qlt_le_dec (snd x) (snd p)) as [Hlt | Hge]; [now left |].
        right. split; [now apply Qle_antisym |].
        rewrite Forall_forall in Hp. now apply Hp. }
      apply Forall_forall. exact Hall.
Qed.

Lemma sort_desc_sorted (l : list (Z * Q)) :
  StronglySorted (fun p q => (fst p < fst q)%Z) l ->
  StronglySorted before (sort_desc l).
Proof.
  induction 1 as [| p l Hs IH Hp]; simpl; [constructor |].
  apply insert_desc_sorted; [assumption |].
  rewrite sort_desc_perm. assumption.
Qed.

(** *** Columns of a row *)

Lemma enumerate_from_in (row : list Q) (s : nat) (i : Z) (v : Q) :
  In (i, v) (combine (map Z.of_nat (seq s (length row))) row) <->
  exists n, i = Z.of_nat (s + n) /\ nth_error row n = Some v.
Proof.
  revert s. induction row as [| x row IH]; intros s; simpl.
  - split; [tauto | intros [[| n] [_ H]]; discriminate].
  - rewrite IH. split.
    + intros [H | [n [Hi Hn]]].
      * inversion H; subst. exists 0%nat. split; [f_equal; lia | reflexivity].
      * exists (Datatypes.S n). split; [rewrite Hi; f_equal; lia | exact Hn].
    + intros [[| n] [Hi Hn]]; simpl in Hn.
      * left. inversion Hn; subst. f_equal. f_equal. lia.
      * right. exists n. split; [rewrite Hi; f_equal; lia | exact Hn].
Qed.

Lemma enumerate_in (row : list Q) (i : Z) (v : Q) :
  In (i, v) (enumerate row) <->
  exists n, i = Z.of_nat n /\ nth_error row n = Some v.
Proof. apply (enumerate_from_in row 0). Qed.

Lemma enumerate_from_increasing (row : list Q) (s : nat) :
  StronglySorted (fun p q => (fst p < fst q)%Z)
                 (combine (map Z.of_nat (seq s (length row))) row).
Proof.
  revert s. induction row as [| x row IH]; intros s; simpl; constructor.
  - apply IH.
  - apply Forall_forall. intros [i v] Hin.
    apply enumerate_from_in in Hin. destruct Hin as [n [-> _]]. simpl. lia.
Qed.

Lemma enumerate_length (row : list Q) : length (enumerate row) = length row.
Proof.
  unfold enumerate. rewrite length_combine, length_map, length_seq. lia.
Qed.

Lemma enumerate_snd (row : list Q) : map snd (enumerate row) = row.
Proof.
  unfold enumerate. generalize 0%nat.
  induction row as [| x row IH]; intros s; simpl; [reflexivity |].
  now rewrite IH.
Qed.

Lemma ranking_sorted (row : list Q) : StronglySorted before (ranking row).
Proof. apply sort_desc_sorted, (enumerate_from_increasing row 0). Qed.

Lemma ranking_length (row : list Q) : length (ranking row) = length row.
Proof. unfold ranking. now rewrite sort_desc_length, enumerate_length. Qed.

Lemma ranking_in (row : list Q) (i : Z) (v : Q) :
  In (i, v) (ranking row) <->
  exists n, i = Z.of_nat n /\ nth_error row n = Some v.
Proof.
  rewrite <- enumerate_in. unfold ranking.
  split; apply Permutation_in; [| symmetry]; apply sort_desc_perm.
Qed.

(** *** Accepted entries come first *)

Lemma rejected_tail (p : Z * Q) (l : list (Z * Q)) :
  accepted p = false -> Forall (before p) l ->
  Forall (fun q => accepted q = false) l.
Proof.
  unfold accepted. intros Hp Hl. apply Qgtb_false in Hp.
  eapply Forall_impl; [| exact Hl]. intros q Hq. simpl.
  apply Qgtb_false.
  apply Qle_trans with (snd p); [now apply before_le | exact Hp].
Qed.

Lemma count_accepted_rejected (l : list (Z * Q)) :
  Forall (fun q => accepted q = false) l -> count_accepted l = 0%nat.
Proof.
  unfold count_accepted. induction 1 as [| q l Hq Hl IH]; simpl; auto.
  now rewrite Hq.
Qed.

Lemma mask_index_rejected (l : list (Z * Q)) :
  Forall (fun q => accepted q = false) l ->
  map mask_index l = repeat (-1)%Z (length l).
Proof.
  induction 1 as [| q l Hq Hl IH]; simpl; auto.
  unfold mask_index at 1. now rewrite Hq, IH.
Qed.

Lemma mask_index_sorted (l : list (Z * Q)) :
  StronglySorted before l ->
  map mask_index l =
  firstn (count_accepted l) (map fst l)
  ++ repeat (-1)%Z (length l - count_accepted l).
Proof.
  induction 1 as [| p l Hs IH Hp]; [reflexivity |].
  unfold count_accepted in *. simpl. unfold mask_index at 1.
  destruct (accepted p) eqn:E; simpl.
  - now rewrite IH.
  - pose proof (rejected_tail E Hp) as Hrej.
    rewrite (mask_index_rejected Hrej).
    pose proof (count_accepted_rejected Hrej) as Hc.
    unfold count_accepted in Hc. rewrite Hc. reflexivity.
Qed.

Lemma in_firstn (X : Type) (n : nat) (l : list X) (x : X) :
  In x (firstn n l) -> In x l.
Proof.
  intros H. rewrite <- (firstn_skipn n l). apply in_or_app. now left.
Qed.

Lemma firstn_sorted (n : nat) (l : list (Z * Q)) :
  StronglySorted before l -> StronglySorted before (firstn n l).
Proof.
  intros H. revert n. induction H as [| p l Hs IH Hp]; intros [| n]; simpl;
    try constructor; auto.
  apply Forall_forall. intros x Hx. rewrite Forall_forall in Hp.
  apply Hp. now apply in_firstn with n.
Qed.

Lemma count_accepted_firstn (n : nat) (l : list (Z * Q)) :
  StronglySorted before l ->
  count_accepted (firstn n l) = Nat.min n (count_accepted l).
Proof.
  intros H. revert n. induction H as [| p l Hs IH Hp]; intros [| n];
    try reflexivity.
  unfold count_accepted in *. simpl.
  destruct (accepted p) eqn:E; simpl.
  - now rewrite IH.
  - pose proof (rejected_tail E Hp) as Hrej.
    pose proof (count_accepted_rejected Hrej) as Hc.
    unfold count_accepted in Hc. rewrite Hc. simpl.
    apply count_accepted_rejected.
    apply Forall_forall. intros x Hx. rewrite Forall_forall in Hrej.
    apply Hrej. now apply in_firstn with n.
Qed.

Lemma count_accepted_perm (l l' : list (Z * Q)) :
  Permutation l l' -> count_accepted l = count_accepted l'.
Proof.
  intros H. unfold count_accepted.
  induction H as [| x l l' H IH | x y l | l l' l'' H1 IH1 H2 IH2]; simpl;
    auto; try congruence.
  - destruct (accepted x); simpl; congruence.
  - destruct (accepted x), (accepted y); reflexivity.
Qed.

Lemma count_accepted_ranking (row : list Q) :
  Z.of_nat (count_accepted (ranking row)) = accepted_count row.
Proof.
  unfold ranking. rewrite (count_accepted_perm (sort_desc_perm _)).
  unfold accepted_count, count_accepted. f_equal.
  rewrite <- (enumerate_snd row) at 2.
  induction (enumerate row) as [| p l IH]; simpl; [reflexivity |].
  unfold accepted at 1. destruct (Qgtb (snd p) threshold); simpl; congruence.
Qed.

Lemma accepted_count_le (row : list Q) :
  (0 <= accepted_count row <= Z.of_nat (length row))%Z.
Proof.
  unfold accepted_count. pose proof (filter_length_le (fun v => Qgtb v threshold) row). lia.
Qed.

Lemma firstn_repeat (X : Type) (x : X) (a b : nat) :
  firstn a (repeat x b) = repeat x (Nat.min a b).
Proof.
  revert b. induction a as [| a IH]; intros [| b]; simpl; auto.
  now rewrite IH.
Qed.

Lemma ranked_slots_mask (k : Z) (row : list Q) :
  ranked_slots k row =
  match firstn (Z.to_nat k) (ranking row) with
  | [] => []
  | best :: rest => fst best :: map mask_index rest
  end.
Proof. reflexivity. Qed.

(** The ranked slots of a row: its best columns, as many as the accepted
    ones among the first [k] and at least one, then the sentinel. *)
Lemma ranked_slots_closed (k : nat) (row : list Q) :
  (1 <= k <= length row)%nat ->
  let c := count_accepted (ranking row) in
  let m := Nat.max 1 (Nat.min k c) in
  ranked_slots (Z.of_nat k) row =
  firstn m (map fst (ranking row)) ++ repeat (-1)%Z (k - m).
Proof.
  intros [Hk1 Hk2]. rewrite ranked_slots_mask, Nat2Z.id.
  pose proof (ranking_sorted row) as Hs.
  rewrite <- ranking_length in Hk2.
  destruct (ranking row) as [| best rk]; simpl in Hk2; [lia |].
  destruct k as [| k]; [lia |]. clear Hk1.
  inversion Hs as [| ? ? Hs' Hb]; subst.
  cbv zeta. unfold count_accepted at 1 2. simpl filter. simpl firstn at 1.
  destruct (accepted best) eqn:E.
  - simpl length. fold (count_accepted rk).
    rewrite <- Nat.succ_min_distr.
    replace (Nat.max 1 (Datatypes.S (Nat.min k (count_accepted rk))))
      with (Datatypes.S (Nat.min k (count_accepted rk))) by lia.
    simpl. f_equal.
    rewrite (mask_index_sorted (firstn_sorted k Hs')).
    rewrite count_accepted_firstn by assumption.
    rewrite !firstn_map, firstn_firstn, length_firstn.
    f_equal; [do 2 f_equal; lia | f_equal; lia].
  - fold (count_accepted rk).
    pose proof (rejected_tail E Hb) as Hrej.
    rewrite (count_accepted_rejected Hrej), Nat.min_0_r. simpl. f_equal.
    rewrite mask_index_rejected.
    + rewrite length_firstn. f_equal. lia.
    + apply Forall_forall. intros x Hx. rewrite Forall_forall in Hrej.
      apply Hrej. now apply in_firstn with k.
Qed.

Lemma ranked_slots_length (k : nat) (row : list Q) :
  (1 <= k <= length row)%nat -> length (ranked_slots (Z.of_nat k) row) = k.
Proof.
  intros H. rewrite ranked_slots_closed by assumption. cbv zeta.
  rewrite length_app, repeat_length, length_firstn, length_map, ranking_length.
  lia.
Qed.

(** The five slots of a row do not depend on [k], as long as [k] is at
    least the accepted count of the row. *)
Lemma five_slots_closed (k : nat) (row : list Q) :
  (1 <= k <= length row)%nat ->
  (count_accepted (ranking row) <= k)%nat ->
  let m := Nat.min (Nat.max 1 (count_accepted (ranking row))) 5 in
  five_slots (ranked_slots (Z.of_nat k) row) =
  firstn m (map fst (ranking row)) ++ repeat (-1)%Z (5 - m).
Proof.
  intros Hk Hc. cbv zeta. unfold five_slots.
  rewrite ranked_slots_length by assumption.
  rewrite ranked_slots_closed by assumption. cbv zeta.
  rewrite Nat.min_r by assumption.
  set (c := count_accepted (ranking row)) in *.
  rewrite <- app_assoc, <- repeat_app.
  rewrite firstn_app, firstn_firstn, firstn_repeat, length_firstn.
  rewrite length_map, ranking_length.
  f_equal; [f_equal; lia | f_equal; lia].
Qed.

(** ** The width of the ranking *)

Lemma sum_mask_row (row : list Q) :
  fold_right Z.add 0%Z
             (map (fun v => if Qgtb v threshold then 1%Z else 0%Z) row) =
  accepted_count row.
Proof.
  unfold accepted_count. induction row as [| v row IH]; [reflexivity |].
  simpl fold_right. rewrite IH. simpl filter.
  destruct (Qgtb v threshold); simpl length; lia.
Qed.

Lemma reduce_max_cons (z : Z) (l : list Z) :
  Forall (fun x => (0 <= x)%Z) (z :: l) ->
  reduce_max (z :: l) = Some (fold_right Z.max 0%Z (z :: l)).
Proof.
  revert z. induction l as [| y l IH]; intros z H.
  - inversion H; subst. simpl. f_equal. lia.
  - inversion H; subst. change (reduce_max (z :: y :: l))
      with (Some (match reduce_max (y :: l) with
                  | None => z
                  | Some m => Z.max z m
                  end)).
    now rewrite IH.
Qed.

Lemma num_k_of_batch_k (B : nat) (iou_raw : list (list Q)) :
  num_k_of B iou_raw = batch_k (transpose B iou_raw).
Proof.
  unfold num_k_of, batch_k, greater_mask, reduce_sum_axis1.
  rewrite transpose_map, map_map.
  rewrite (map_ext _ accepted_count) by (intros; apply sum_mask_row).
  set (counts := map accepted_count (transpose B iou_raw)).
  assert (Hpos : Forall (fun x => (0 <= x)%Z) counts).
  { apply Forall_forall. intros x Hx. apply in_map_iff in Hx.
    destruct Hx as [row [<- _]]. apply accepted_count_le. }
  destruct counts as [| z l]; [reflexivity |].
  rewrite reduce_max_cons by assumption.
  destruct (Z.leb_spec (fold_right Z.max 0%Z (z :: l)) 0); lia.
Qed.

Lemma batch_k_bounds (A : nat) (overlap : list (list Q)) :
  (1 <= A)%nat -> Forall (fun r => length r = A) overlap ->
  (1 <= batch_k overlap <= Z.of_nat A)%Z /\
  Forall (fun r => (accepted_count r <= batch_k overlap)%Z) overlap.
Proof.
  intros HA H. unfold batch_k.
  induction H as [| r overlap Hr H IH]; simpl.
  - split; [lia | constructor].
  - destruct IH as [IH1 IH2]. pose proof (accepted_count_le r). split; [lia |].
    constructor; [lia |].
    eapply Forall_impl; [| exact IH2]. simpl. intros; lia.
Qed.

(** ** The loop that widens the assignment to five columns *)

Lemma concat_last_column (X : Type) (g : X -> list Z) (col : list Z)
  (l : list X) :
  concat_last (map g l) (repeat col (length l)) = map (fun x => g x ++ col) l.
Proof.
  unfold concat_last. induction l as [| x l IH]; simpl; [reflexivity |].
  now rewrite IH.
Qed.

Lemma while_lt_5_map (X : Type) (n : nat) (num_k : Z) (g : X -> list Z)
  (l : list X) :
  n = Z.to_nat (5 - num_k) ->
  while_lt_5 n num_k (map g l) (repeat [(0 - 1)%Z] (length l)) =
  (Z.max num_k 5, map (fun x => g x ++ repeat (-1)%Z n) l).
Proof.
  revert num_k g. induction n as [| n IH]; intros num_k g Hn; simpl.
  - f_equal; [lia |]. apply map_ext. intros. now rewrite app_nil_r.
  - destruct (Z.ltb_spec num_k 5); [| lia].
    rewrite concat_last_column, IH by lia. f_equal; [lia |].
    apply map_ext. intros. now rewrite <- app_assoc.
Qed.

(** The loop leaves with its guard false: the turns allowed are enough. *)
Lemma while_lt_5_exit (X : Type) (num_k : Z) (g : X -> list Z) (l : list X) :
  (fst (while_lt_5 (Z.to_nat (5 - num_k)) num_k (map g l)
                   (repeat [(0 - 1)%Z] (length l))) <? 5)%Z = false.
Proof.
  rewrite while_lt_5_map by reflexivity. simpl. apply Z.ltb_ge. lia.
Qed.

(** ** The matcher, row by row *)

Lemma index_row (k : Z) (row : list Q) :
  firstn 1 (map fst (top_k_row k row))
  ++ zip_with (fun i m => ((i + 1) * m - 1)%Z)
       (skipn 1 (map fst (top_k_row k row)))
       (skipn 1 (map (fun v => if Qgtb v threshold then 1%Z else 0%Z)
                     (map snd (top_k_row k row)))) =
  ranked_slots k row.
Proof.
  unfold ranked_slots. destruct (top_k_row k row) as [| best rest]; simpl.
  - reflexivity.
  - f_equal. induction rest as [| p rest IH]; simpl; [reflexivity |].
    rewrite IH. f_equal. destruct (Qgtb (snd p) threshold); lia.
Qed.

(** The returned table is the assignment of each row of the transposed
    matrix, all with the width [num_k_of]. *)
Lemma match_anchors_rows (A B : nat) (iou_raw : list (list Q)) :
  has_shape A B iou_raw -> (1 <= A)%nat ->
  match_anchors A B iou_raw =
  OK (map (assignment (num_k_of B iou_raw)) (transpose B iou_raw)).
Proof.
  intros Hsh HA. apply transpose_shape in Hsh. destruct Hsh as [_ Hrows].
  pose proof (batch_k_bounds HA Hrows) as [[Hk1 Hk2] _].
  rewrite <- num_k_of_batch_k in Hk1, Hk2.
  unfold match_anchors, top_k.
  set (k := num_k_of B iou_raw) in *.
  set (overlap := transpose B iou_raw) in *.
  destruct (Z.ltb_spec (Z.of_nat A) k); [lia |].
  cbv zeta. unfold greater_mask, concat_last.
  rewrite !map_map. rewrite (zip_with_map _ _ _ overlap).
  rewrite (zip_with_map _ _ _ overlap).
  rewrite (map_ext _ (ranked_slots k)) by (intros; apply index_row).
  rewrite length_map, while_lt_5_map by reflexivity. cbn [snd].
  rewrite !map_map. f_equal.
  apply map_ext_in. intros row Hrow. unfold assignment, five_slots.
  rewrite Forall_forall in Hrows. specialize (Hrows row Hrow).
  assert (Hlen : length (ranked_slots k row) = Z.to_nat k).
  { rewrite <- (Z2Nat.id k) at 1 by lia. apply ranked_slots_length. lia. }
  rewrite Hlen. do 4 f_equal. lia.
Qed.

(** ** The assignment of a row in closed form *)

Lemma match_anchors_closed (A B : nat) (iou_raw : list (list Q)) :
  has_shape A B iou_raw -> (1 <= A)%nat ->
  match_anchors A B iou_raw =
  OK (map slots_of_ranking (transpose B iou_raw)).
Proof.
  intros Hsh HA. rewrite (match_anchors_rows Hsh HA). f_equal.
  apply transpose_shape in Hsh. destruct Hsh as [_ Hrows].
  pose proof (batch_k_bounds HA Hrows) as [[Hk1 Hk2] Hc].
  rewrite <- num_k_of_batch_k in Hk1, Hk2, Hc.
  apply map_ext_in. intros row Hrow. unfold assignment, slots_of_ranking.
  rewrite Forall_forall in Hrows, Hc.
  specialize (Hrows row Hrow). specialize (Hc row Hrow). cbv beta in Hc.
  rewrite <- count_accepted_ranking in Hc.
  rewrite <- (Z2Nat.id (num_k_of B iou_raw)) by lia.
  rewrite five_slots_closed by lia. reflexivity.
Qed.

Lemma ranking_nth (row : list Q) (n : nat) :
  (n < length row)%nat ->
  exists a, (a < length row)%nat /\
            nth n (ranking row) ((-1)%Z, 0) = (Z.of_nat a, nth a row 0).
Proof.
  intros Hn. rewrite <- ranking_length in Hn.
  pose proof (nth_In (ranking row) ((-1)%Z, 0) Hn) as Hin.
  destruct (nth n (ranking row) ((-1)%Z, 0)) as [i v].
  apply ranking_in in Hin. destruct Hin as [a [-> Ha]].
  exists a. split.
  - apply nth_error_Some. congruence.
  - f_equal. symmetry. now apply nth_error_nth.
Qed.

Lemma sorted_nth (l : list (Z * Q)) (d : Z * Q) (n n' : nat) :
  StronglySorted before l -> (n < n' < length l)%nat ->
  before (nth n l d) (nth n' l d).
Proof.
  intros H. revert n n'. induction H as [| p l Hs IH Hp]; intros n n' Hn.
  - simpl in Hn. lia.
  - simpl in Hn. destruct n' as [| n']; [lia |]. destruct n as [| n]; simpl.
    + rewrite Forall_forall in Hp. apply Hp, nth_In. lia.
    + apply IH. lia.
Qed.

Lemma sorted_nth_accepted (l : list (Z * Q)) (d : Z * Q) (n : nat) :
  StronglySorted before l -> (n < count_accepted l)%nat ->
  accepted (nth n l d) = true.
Proof.
  intros H. revert n. unfold count_accepted.
  induction H as [| p l Hs IH Hp]; intros n Hn; simpl in Hn; [lia |].
  destruct (accepted p) eqn:E.
  - destruct n as [| n]; simpl; [assumption | apply IH; simpl in Hn; lia].
  - pose proof (count_accepted_rejected (rejected_tail E Hp)) as Hc.
    unfold count_accepted in Hc. lia.
Qed.

(** The head of the ranking is a column of largest overlap, the lowest
    one. *)
Lemma ranking_head (row : list Q) :
  (1 <= length row)%nat ->
  exists a, (a < length row)%nat /\
    nth 0 (map fst (ranking row)) (-1)%Z = Z.of_nat a /\
    (forall a', (a' < length row)%nat -> nth a' row 0 <= nth a row 0) /\
    (forall a', (a' < a)%nat -> nth a' row 0 < nth a row 0).
Proof.
  intros Hlen.
  destruct (ranking_nth row (n := 0)) as [a [Ha H0]]; [lia |].
  exists a. split; [assumption |].
  pose proof (ranking_sorted row) as Hs.
  pose proof (ranking_length row) as Hl.
  change (-1)%Z with (fst ((-1)%Z, 0)). rewrite map_nth, H0.
  split; [reflexivity |].
  assert (Hall : forall a', (a' < length row)%nat -> a' <> a ->
                 before (Z.of_nat a, nth a row 0) (Z.of_nat a', nth a' row 0)).
  { intros a' Ha' Hne.
    assert (Hin : In (Z.of_nat a', nth a' row 0) (ranking row)).
    { apply ranking_in. exists a'. split; [reflexivity |].
      now apply nth_error_nth'. }
    apply In_nth with (d := ((-1)%Z, 0)) in Hin.
    destruct Hin as [n [Hn Hv]].
    destruct n as [| n]; [rewrite H0 in Hv; inversion Hv; lia |].
    rewrite <- H0, <- Hv. apply sorted_nth; [assumption | lia]. }
  split.
  - intros a' Ha'. destruct (Nat.eq_dec a' a) as [-> | Hne]; [apply Qle_refl |].
    apply (before_le (Hall a' Ha' Hne)).
  - intros a' Ha'. destruct (Hall a') as [H | [_ H]]; simpl in *; try lia.
    assumption.
Qed.

Lemma cast_float32_not_sentinel (z : Z) :
  (0 <= z)%Z -> is_sentinel (cast_float32 z) = false.
Proof.
  intros Hz. unfold is_sentinel, sentinel, cast_float32.
  destruct (Qeq_bool (inject_Z z) (inject_Z (-1))) eqn:E; [| reflexivity].
  apply Qeq_bool_iff in E. unfold Qeq in E. simpl in E. exfalso. lia.
Qed.

Lemma nth_map_in (X Y : Type) (f : X -> Y) (l : list X) (n : nat) (dx : X)
  (dy : Y) :
  (n < length l)%nat -> nth n (map f l) dy = f (nth n l dx).
Proof.
  intros H. rewrite (nth_indep _ dy (f dx)) by (now rewrite length_map).
  apply map_nth.
Qed.

Lemma match_anchors_no_anchor (B : nat) (iou_raw : list (list Q)) :
  match_anchors 0 B iou_raw = InvalidArgument.
Proof.
  unfold match_anchors, top_k.
  assert (H : (1 <= num_k_of B iou_raw)%Z)
    by (rewrite num_k_of_batch_k; unfold batch_k; lia).
  destruct (Z.ltb_spec (Z.of_nat 0) (num_k_of B iou_raw)); [reflexivity | lia].
Qed.

Lemma match_anchors_returns (A B : nat) (iou_raw : list (list Q))
  (rows : list (list Q)) :
  match_anchors A B iou_raw = OK rows -> (1 <= A)%nat.
Proof.
  destruct A as [| A]; [| lia]. now rewrite match_anchors_no_anchor.
Qed.

Lemma transpose_row (A B : nat) (iou_raw : list (list Q)) (b : nat) :
  has_shape A B iou_raw -> (b < B)%nat ->
  length (nth b (transpose B iou_raw) []) = A /\
  forall a, (a < A)%nat ->
            nth a (nth b (transpose B iou_raw) []) 0 = iou_at iou_raw a b.
Proof.
  intros Hsh Hb. split.
  - destruct (transpose_shape Hsh) as [Hl Hrows].
    rewrite Forall_forall in Hrows. apply Hrows, nth_In. lia.
  - intros a Ha. now apply transpose_nth with A.
Qed.

(** ** The anchor matcher *)

(** With at least one anchor the matcher returns one assignment per box, and
    slot 0 of each is the lowest index of an anchor of largest overlap. *)
Lemma match_anchors_slot0 (A B : nat) (iou_raw : list (list Q))
  (Hshape : has_shape A B iou_raw) (HA : (1 <= A)%nat) :
  exists rows,
    match_anchors A B iou_raw = OK rows /\ length rows = B /\
    forall b, (b < B)%nat ->
      let slot0 := nth 0 (nth b rows []) sentinel in
      is_sentinel slot0 = false /\
      exists a, (a < A)%nat /\ slot0 = cast_float32 (Z.of_nat a) /\
        (forall a', (a' < A)%nat ->
                    iou_at iou_raw a' b <= iou_at iou_raw a b) /\
        (forall a', (a' < a)%nat ->
                    iou_at iou_raw a' b < iou_at iou_raw a b).
Proof.
  rewrite (match_anchors_closed Hshape HA). eexists. split; [reflexivity |].
  destruct (transpose_shape Hshape) as [Hl _].
  split; [now rewrite length_map |].
  intros b Hb. rewrite nth_map_in with (dx := []) by lia.
  destruct (transpose_row Hshape Hb) as [Hlen Hnth].
  set (row := nth b (transpose B iou_raw) []) in *.
  destruct (ranking_head row) as [a [Ha [H0 [Hmax Hlow]]]]; [lia |].
  assert (Hslot : nth 0 (slots_of_ranking row) sentinel =
                  cast_float32 (Z.of_nat a)).
  { rewrite <- H0. unfold slots_of_ranking.
    pose proof (ranking_length row) as Hrl.
    destruct (ranking row) as [| p rk]; simpl in Hrl; [lia |].
    destruct (Nat.min (Nat.max 1 (count_accepted (p :: rk))) 5) eqn:E; [lia |].
    reflexivity. }
  cbv zeta. rewrite Hslot. split; [apply cast_float32_not_sentinel; lia |].
  exists a. split; [lia |]. split; [reflexivity |]. split.
  - intros a' Ha'. rewrite <- !Hnth by lia. apply Hmax. lia.
  - intros a' Ha'. rewrite <- !Hnth by lia. now apply Hlow.
Qed.

(** C3: the width of the ranking is one number for all the boxes passed
    together, the largest of their accepted counts and at least 1 (so 1
    when no overlap exceeds the threshold), and every box is ranked with
    it. *)
Theorem num_k_batch_maximum (A B : nat) (iou_raw : list (list Q))
  (Hshape : has_shape A B iou_raw) (HA : (1 <= A)%nat) :
  let overlap := transpose B iou_raw in
  let k := Z.max 1 (fold_right Z.max 0%Z (map accepted_count overlap)) in
  num_k_of B iou_raw = k /\
  (Forall (fun row => accepted_count row = 0%Z) overlap -> k = 1%Z) /\
  match_anchors A B iou_raw = OK (map (assignment k) overlap).
Proof.
  cbv zeta. fold (batch_k (transpose B iou_raw)).
  split; [apply num_k_of_batch_k |]. split.
  - intros H. unfold batch_k.
    induction H as [| r l Hr H IH]; simpl; [reflexivity | lia].
  - rewrite <- num_k_of_batch_k. now apply match_anchors_rows.
Qed.

(** C5: every slot of a returned assignment is the float of an integer,
    which is the sentinel -1 or an anchor index from 0 to [A - 1]. *)
Theorem slots_index_or_sentinel (A B : nat) (iou_raw rows : list (list Q))
  (Hshape : has_shape A B iou_raw)
  (Hret : match_anchors A B iou_raw = OK rows) :
  Forall (Forall (fun q => exists z : Z,
                      q = cast_float32 z /\
                      (z = (-1)%Z \/ (0 <= z < Z.of_nat A)%Z))) rows.
Proof.
  pose proof (match_anchors_returns _ _ _ Hret) as HA.
  rewrite (match_anchors_closed Hshape HA) in Hret. inversion Hret; subst.
  destruct (transpose_shape Hshape) as [_ Hrows].
  rewrite Forall_forall in Hrows.
  apply Forall_forall. intros r Hr. apply in_map_iff in Hr.
  destruct Hr as [row [<- Hrow]]. specialize (Hrows row Hrow).
  apply Forall_forall. intros q Hq. unfold slots_of_ranking in Hq.
  apply in_map_iff in Hq.
  destruct Hq as [z [<- Hz]]. exists z. split; [reflexivity |].
  apply in_app_or in Hz. destruct Hz as [Hz | Hz].
  - right. apply in_firstn in Hz. apply in_map_iff in Hz.
    destruct Hz as [[i v] [<- Hin]]. apply ranking_in in Hin.
    destruct Hin as [n [-> Hn]]. simpl.
    assert (n < length row)%nat by (apply nth_error_Some; congruence). lia.
  - left. now apply repeat_spec in Hz.
Qed.

Lemma ranking_nth_index (row : list Q) (n : nat) :
  (n < length row)%nat ->
  let i := nth n (map fst (ranking row)) (-1)%Z in
  (0 <= i < Z.of_nat (length row))%Z /\
  nth n (ranking row) ((-1)%Z, 0) = (i, nth (Z.to_nat i) row 0).
Proof.
  intros Hn. cbv zeta.
  assert (Hm : nth n (map fst (ranking row)) (-1)%Z =
               fst (nth n (ranking row) ((-1)%Z, 0)))
    by exact (map_nth fst (ranking row) ((-1)%Z, 0) n).
  rewrite Hm. destruct (ranking_nth row Hn) as [a [Ha ->]]. cbn [fst].
  rewrite Nat2Z.id. split; [lia | reflexivity].
Qed.

Lemma map_cast_sentinels (n : nat) :
  map cast_float32 (repeat (-1)%Z n) = repeat sentinel n.
Proof. apply map_repeat. Qed.

Lemma non_sentinel_count_app (l l' : list Q) :
  non_sentinel_count (l ++ l') =
  (non_sentinel_count l + non_sentinel_count l')%Z.
Proof.
  unfold non_sentinel_count. rewrite filter_app, length_app. lia.
Qed.

Lemma non_sentinel_count_sentinels (n : nat) :
  non_sentinel_count (repeat sentinel n) = 0%Z.
Proof.
  unfold non_sentinel_count. induction n as [| n IH]; [reflexivity |].
  simpl repeat. simpl filter. exact IH.
Qed.

Lemma non_sentinel_count_indices (l : list Z) :
  Forall (fun i => (0 <= i)%Z) l ->
  non_sentinel_count (map cast_float32 l) = Z.of_nat (length l).
Proof.
  unfold non_sentinel_count. induction 1 as [| i l Hi H IH]; [reflexivity |].
  simpl map. simpl filter. rewrite (cast_float32_not_sentinel Hi).
  simpl negb. cbv iota. simpl length. lia.
Qed.

(** C1, as the code has it: with at least one anchor the matcher returns,
    for each box, exactly five slots; below five ranked slots the remaining
    ones hold the sentinel; above five no error is raised and the
    assignment is the first five of the ranked slots. *)
Theorem five_slots_pad_or_truncate (A B : nat) (iou_raw : list (list Q))
  (Hshape : has_shape A B iou_raw) (HA : (1 <= A)%nat) :
  let k := num_k_of B iou_raw in
  exists rows,
    match_anchors A B iou_raw = OK rows /\ length rows = B /\
    Forall (fun r => length r = 5%nat) rows /\
    ((k < 5)%Z ->
     Forall (fun r => skipn (Z.to_nat k) r = repeat sentinel (5 - Z.to_nat k))
            rows) /\
    ((5 < k)%Z ->
     rows = map (fun row => map cast_float32 (firstn 5 (ranked_slots k row)))
                (transpose B iou_raw)).
Proof.
  cbv zeta. rewrite (match_anchors_rows Hshape HA).
  eexists. split; [reflexivity |].
  destruct (transpose_shape Hshape) as [Hl Hrows].
  pose proof (batch_k_bounds HA Hrows) as [[Hk1 Hk2] _].
  rewrite <- num_k_of_batch_k in Hk1, Hk2.
  set (k := num_k_of B iou_raw) in *. rewrite Forall_forall in Hrows.
  assert (Hlen : forall row, In row (transpose B iou_raw) ->
                 length (ranked_slots k row) = Z.to_nat k).
  { intros row Hrow. rewrite <- (Z2Nat.id k) at 1 by lia.
    apply ranked_slots_length. rewrite (Hrows row Hrow). lia. }
  split; [now rewrite length_map |]. split; [| split].
  - apply Forall_forall. intros r Hr. apply in_map_iff in Hr.
    destruct Hr as [row [<- Hrow]]. unfold assignment, five_slots.
    rewrite length_map, length_firstn, length_app, repeat_length.
    rewrite (Hlen row Hrow). lia.
  - intros Hk. apply Forall_forall. intros r Hr. apply in_map_iff in Hr.
    destruct Hr as [row [<- Hrow]]. unfold assignment, five_slots.
    rewrite (Hlen row Hrow).
    rewrite firstn_all2
      by (rewrite length_app, repeat_length, (Hlen row Hrow); lia).
    rewrite map_app, map_cast_sentinels, skipn_app, length_map.
    rewrite (Hlen row Hrow), Nat.sub_diag, skipn_all2
      by (rewrite length_map, (Hlen row Hrow); lia).
    reflexivity.
  - intros Hk. apply map_ext_in. intros row Hrow.
    unfold assignment, five_slots. rewrite (Hlen row Hrow).
    replace (5 - Z.to_nat k)%nat with 0%nat by lia.
    simpl repeat. now rewrite app_nil_r.
Qed.

(** C4, as the code has it: a box with fewer than five accepted anchors,
    [c] of them, gets [max 1 c] anchor indices followed by the sentinel up
    to five slots; the indices after the first belong to anchors whose
    overlap exceeds the threshold, and the overlaps do not increase along
    the slots. *)
Theorem assignment_of_box (A B : nat) (iou_raw rows : list (list Q)) (b : nat)
  (Hshape : has_shape A B iou_raw)
  (Hret : match_anchors A B iou_raw = OK rows) (Hb : (b < B)%nat) :
  let c := accepted_count (nth b (transpose B iou_raw) []) in
  let m := Z.to_nat (Z.max 1 c) in
  let overlap_of i := iou_at iou_raw (Z.to_nat i) b in
  (c < 5)%Z ->
  exists best : list Z,
    nth b rows [] = map cast_float32 best ++ repeat sentinel (5 - m) /\
    length best = m /\
    non_sentinel_count (nth b rows []) = Z.max 1 c /\
    Forall (fun i => (0 <= i < Z.of_nat A)%Z) best /\
    (forall n, (1 <= n < m)%nat ->
               threshold < overlap_of (nth n best (-1)%Z)) /\
    (forall n n', (n < n' < m)%nat ->
       overlap_of (nth n' best (-1)%Z) <= overlap_of (nth n best (-1)%Z)).
Proof.
  cbv zeta. intros Hc.
  pose proof (match_anchors_returns _ _ _ Hret) as HA.
  rewrite (match_anchors_closed Hshape HA) in Hret. injection Hret as <-.
  destruct (transpose_shape Hshape) as [Hl _].
  rewrite nth_map_in with (dx := []) by lia.
  destruct (transpose_row Hshape Hb) as [Hlen Hnth].
  set (row := nth b (transpose B iou_raw) []) in *.
  rewrite <- count_accepted_ranking in *.
  pose proof (accepted_count_le row) as Hca.
  rewrite <- count_accepted_ranking in Hca.
  unfold slots_of_ranking.
  set (cn := count_accepted (ranking row)) in *.
  replace (Nat.min (Nat.max 1 cn) 5) with (Nat.max 1 cn) by lia.
  replace (Z.to_nat (Z.max 1 (Z.of_nat cn))) with (Nat.max 1 cn) by lia.
  set (m := Nat.max 1 cn) in *.
  assert (Hbest : forall n, (n < m)%nat ->
            nth n (firstn m (map fst (ranking row))) (-1)%Z =
            nth n (map fst (ranking row)) (-1)%Z).
  { intros n Hn. rewrite nth_firstn.
    destruct (Nat.ltb_spec n m); [reflexivity | lia]. }
  assert (Hrange : Forall (fun i => (0 <= i < Z.of_nat (length row))%Z)
                          (firstn m (map fst (ranking row)))).
  { apply Forall_forall. intros z Hz. apply in_firstn in Hz.
    apply in_map_iff in Hz. destruct Hz as [[i v] [<- Hin]].
    apply ranking_in in Hin. destruct Hin as [n [-> Hn]]. simpl.
    assert (n < length row)%nat by (apply nth_error_Some; congruence). lia. }
  exists (firstn m (map fst (ranking row))).
  assert (Hlb : length (firstn m (map fst (ranking row))) = m)
    by (rewrite length_firstn, length_map, ranking_length; lia).
  split; [now rewrite map_app, map_cast_sentinels |].
  split; [exact Hlb |]. split; [| split; [| split]].
  - rewrite map_app, map_cast_sentinels, non_sentinel_count_app.
    rewrite non_sentinel_count_sentinels, non_sentinel_count_indices.
    + rewrite Hlb. lia.
    + eapply Forall_impl; [| exact Hrange]. simpl. intros; lia.
  - now rewrite <- Hlen.
  - intros n Hn. rewrite Hbest by lia.
    destruct (ranking_nth_index row (n := n)) as [Hi Hv]; [lia |].
    rewrite <- Hnth by lia.
    assert (Hacc : accepted (nth n (ranking row) ((-1)%Z, 0)) = true)
      by (apply sorted_nth_accepted; [apply ranking_sorted | lia]).
    rewrite Hv in Hacc. now apply Qgtb_true in Hacc.
  - intros n n' Hn. rewrite !Hbest by lia.
    destruct (ranking_nth_index row (n := n)) as [Hi Hv]; [lia |].
    destruct (ranking_nth_index row (n := n')) as [Hi' Hv']; [lia |].
    rewrite <- !Hnth by lia.
    assert (Hbef : before (nth n (ranking row) ((-1)%Z, 0))
                          (nth n' (ranking row) ((-1)%Z, 0)))
      by (apply sorted_nth; [apply ranking_sorted | rewrite ranking_length; lia]).
    rewrite Hv, Hv' in Hbef. exact (before_le Hbef).
Qed.

(** C1, as the specification states it, fails: with six accepted anchors
    the width of the ranking is 6 and the matcher returns the five best
    anchors instead of raising an error. *)
Lemma six_accepted_anchors_no_error :
  has_shape 6 1 iou_6x1 /\
  (5 < num_k_of 1 iou_6x1)%Z /\
  match_anchors 6 1 iou_6x1 = OK [[2; 0; 1; 3; 4]] /\
  match_anchors 6 1 iou_6x1 <> InvalidArgument.
Proof.
  split; [split; [reflexivity | repeat constructor] |].
  split; [reflexivity |]. split; [reflexivity | discriminate].
Qed.

(** C4, as the specification states it, fails: a box with one accepted
    anchor has one slot that is not the sentinel, not two. *)
Lemma one_accepted_anchor_one_slot :
  has_shape 2 1 iou_2x1 /\
  exists rows,
    match_anchors 2 1 iou_2x1 = OK rows /\
    let c := accepted_count (nth 0 (transpose 1 iou_2x1) []) in
    (c < 5)%Z /\
    non_sentinel_count (nth 0 rows []) <> Z.min (c + 1) 5.
Proof.
  split; [split; [reflexivity | repeat constructor] |].
  exists [[0; -1; -1; -1; -1]].
  split; [reflexivity |]. cbv zeta. split; [reflexivity | discriminate].
Qed.

(** ** The overlap matrix of [get_best_anchor] *)

Section OverlapMatrix.
Variable compute_iou : Box -> Box -> Q.

(** The entry of anchor [a] and box [b]: the overlap of [b] with the scaled
    anchor placed at the centre of [b]. *)
Lemma iou_raw_of_entries (y_true : list Box) (anchors : list (Q * Q))
  (width height : Q) :
  iou_raw_of compute_iou y_true anchors width height =
  map (fun a =>
         map (fun b => compute_iou b (mkBox (cx b) (cy b) (fst a / width)
                                            (snd a / height))) y_true)
      anchors.
Proof.
  unfold iou_raw_of. cbv zeta. rewrite zip_with_repeat_l, !map_map.
  apply map_ext. intros a. rewrite map_map. apply zip_with_map_r.
Qed.

Lemma iou_raw_of_shape (y_true : list Box) (anchors : list (Q * Q))
  (width height : Q) :
  has_shape (length anchors) (length y_true)
            (iou_raw_of compute_iou y_true anchors width height).
Proof.
  rewrite iou_raw_of_entries. split; [apply length_map |].
  apply Forall_forall. intros r Hr. apply in_map_iff in Hr.
  destruct Hr as [a [<- _]]. apply length_map.
Qed.

Lemma transpose_no_column (X : Type) (t : list (list X)) : transpose 0 t = [].
Proof.
  induction t as [| r t IH]; simpl; [reflexivity |].
  rewrite IH. now destruct r.
Qed.

(** Where the overlap of two boxes at one centre is a function of their
    widths and heights, the overlap matrix is one too. *)
Hypothesis compute_iou_same_centre :
  forall x y x' y' w h aw ah,
    compute_iou (mkBox x y w h) (mkBox x y aw ah) =
    compute_iou (mkBox x' y' w h) (mkBox x' y' aw ah).

Lemma iou_raw_of_shapes_only (y1 y2 : list Box) (anchors : list (Q * Q))
  (width height : Q) :
  map (fun b => (bw b, bh b)) y1 = map (fun b => (bw b, bh b)) y2 ->
  iou_raw_of compute_iou y1 anchors width height =
  iou_raw_of compute_iou y2 anchors width height.
Proof.
  intros H. rewrite !iou_raw_of_entries. apply map_ext. intros a.
  revert y2 H. induction y1 as [| b1 y1 IH]; intros [| b2 y2] H;
    try discriminate; [reflexivity |].
  simpl in H. injection H as Hw Hh Htl. simpl. f_equal; [| now apply IH].
  destruct b1 as [x1 c1 w1 h1], b2 as [x2 c2 w2 h2]. simpl in *. subst.
  apply compute_iou_same_centre.
Qed.

End OverlapMatrix.

Lemma compute_iou_spec_same_centre (x y x' y' w h aw ah : Q) :
  compute_iou_spec (mkBox x y w h) (mkBox x y aw ah) =
  compute_iou_spec (mkBox x' y' w h) (mkBox x' y' aw ah).
Proof. reflexivity. Qed.

(** C8: two lists of boxes with the same widths and heights get the same
    assignments, wherever their centres are, for every [compute_iou] whose
    value on two boxes at one centre is a function of their widths and
    heights: each anchor is compared at the centre of the box
    ([iou_raw_of_entries]). *)
Theorem get_best_anchor_ignores_centres (compute_iou : Box -> Box -> Q)
  (y1 y2 : list Box) (anchors : list (Q * Q)) (width height : Q)
  (Hiou : forall x y x' y' w h aw ah,
      compute_iou (mkBox x y w h) (mkBox x y aw ah) =
      compute_iou (mkBox x' y' w h) (mkBox x' y' aw ah))
  (Hwh : map (fun b => (bw b, bh b)) y1 = map (fun b => (bw b, bh b)) y2) :
  get_best_anchor compute_iou y1 anchors width height =
  get_best_anchor compute_iou y2 anchors width height.
Proof.
  unfold get_best_anchor.
  rewrite (@iou_raw_of_shapes_only compute_iou Hiou y1 y2 anchors width
             height Hwh).
  apply (f_equal (@length _)) in Hwh. rewrite !length_map in Hwh.
  now rewrite Hwh.
Qed.

(** C7: with no box and at least one anchor nothing is raised: the overlap
    matrix has no column, the assignment table has no row, and padding it
    gives [max_count] pad rows, for a count [max_count] that is an int32. *)
Theorem no_box_is_legal (compute_iou : Box -> Box -> Q)
  (anchors : list (Q * Q)) (width height : Q) (max_count : Z) (pad_value : Q)
  (HA : (1 <= length anchors)%nat)
  (Hmax : (0 <= max_count < 2147483648)%Z) :
  iou_raw_of compute_iou [] anchors width height
  = repeat [] (length anchors) /\
  exists rows,
    get_best_anchor compute_iou [] anchors width height = OK rows /\
    rows = [] /\
    pad_max_instances (item_row 5) rows max_count pad_value =
    repeat (repeat pad_value 5) (Z.to_nat max_count).
Proof.
  split.
  - rewrite iou_raw_of_entries. simpl.
    induction anchors as [| a l IH]; simpl; [reflexivity |].
    destruct l; [reflexivity |]. rewrite IH; [reflexivity | simpl; lia].
  - exists []. unfold get_best_anchor.
    rewrite (match_anchors_rows (iou_raw_of_shape _ _ _ _ _) HA).
    simpl length. rewrite transpose_no_column.
    split; [reflexivity |]. split; [reflexivity |].
    rewrite pad_shorter by (simpl; lia). simpl length.
    unfold item_row. simpl app. f_equal. lia.
Qed.

(** C2: for a list of boxes and a catalog of anchors, neither empty,
    [get_best_anchor] returns one assignment per box, and slot 0 of each is
    not the sentinel: it is the index of an anchor whose overlap with the
    box is the largest (the lowest such index), also when no overlap
    exceeds the threshold. *)
Theorem slot0_best_anchor (compute_iou : Box -> Box -> Q)
  (y_true : list Box) (anchors : list (Q * Q)) (width height : Q)
  (HA : (1 <= length anchors)%nat) (HB : (1 <= length y_true)%nat) :
  let iou_raw := iou_raw_of compute_iou y_true anchors width height in
  exists rows,
    get_best_anchor compute_iou y_true anchors width height = OK rows /\
    length rows = length y_true /\
    forall b, (b < length y_true)%nat ->
      let slot0 := nth 0 (nth b rows []) sentinel in
      is_sentinel slot0 = false /\
      exists a, (a < length anchors)%nat /\
        slot0 = cast_float32 (Z.of_nat a) /\
        (forall a', (a' < length anchors)%nat ->
                    iou_at iou_raw a' b <= iou_at iou_raw a b) /\
        (forall a', (a' < a)%nat ->
                    iou_at iou_raw a' b < iou_at iou_raw a b).
Proof.
  cbv zeta. unfold get_best_anchor.
  exact (match_anchors_slot0
           (iou_raw_of_shape compute_iou y_true anchors width height) HA).
Qed.

(** ** Scenarios *)

(** The scenario of the specification: the anchor 16 x 30 is the best match
    of the box and the two others are accepted after it. *)
Example scenario_anchor_16_30 :
  get_best_anchor compute_iou_spec [box_centre] anchors_3 416 416 =
  OK [[1; 2; 0; -1; -1]].
Proof. reflexivity. Qed.

(** Three instances at most: five boxes keep the first three, one box is
    followed by two pad rows. *)
Example scenario_five_boxes :
  pad_max_instances item_scalar [1; 2; 3; 4; 5]%Z 3 0%Z = [1; 2; 3]%Z.
Proof. reflexivity. Qed.

Example scenario_one_box :
  pad_max_instances (item_row 4) [[1 # 2; 1 # 2; 5 # 100; 7 # 100]] 3 0 =
  [[1 # 2; 1 # 2; 5 # 100; 7 # 100]; [0; 0; 0; 0]; [0; 0; 0; 0]].
Proof. reflexivity. Qed.

(** A count outside int32 wraps around where it meets [dim1]: at [2^31]
    the input comes back as it is, and [2^32 + 4] pads to four items. *)
Example count_2_pow_31 :
  pad_max_instances item_scalar [1; 2; 3]%Z 2147483648 0%Z = [1; 2; 3]%Z.
Proof. reflexivity. Qed.

Example count_2_pow_32_plus_4 :
  pad_max_instances item_scalar [1; 2]%Z 4294967300 0%Z = [1; 2; 0; 0]%Z.
Proof. reflexivity. Qed.

(** No overlap above the threshold, and no box at all: the width is 1. *)
Example num_k_floor : num_k_of 1 [[1 # 10]; [213 # 1000]] = 1%Z.
Proof. reflexivity. Qed.

Example num_k_no_box : num_k_of 0 [[]; []] = 1%Z.
Proof. reflexivity. Qed.

(** Equal overlaps are ranked by ascending anchor index. *)
Example ties_by_index :
  match_anchors 3 1 [[1 # 2]; [3 # 4]; [2 # 4]] = OK [[1; 0; 2; -1; -1]].
Proof. reflexivity. Qed.

(** ** The theorems at concrete inputs *)

Lemma iou_3x2_shape : has_shape 3 2 iou_3x2.
Proof. split; [reflexivity | repeat constructor]. Defined.

Lemma iou_3x2_rows : match_anchors 3 2 iou_3x2 = OK rows_3x2.
Proof. reflexivity. Defined.

Lemma pad_max_instances_length_exact_witness :
  (0 < 3 < 2147483648)%Z /\
  length (pad_max_instances item_scalar [1; 2; 3; 4; 5]%Z 3 0%Z) = 3%nat /\
  ((3 < 5)%Z ->
   pad_max_instances item_scalar [1; 2; 3; 4; 5]%Z 3 0%Z = [1; 2; 3]%Z /\
   [1; 2; 3; 4; 5]%Z =
   pad_max_instances item_scalar [1; 2; 3; 4; 5]%Z 3 0%Z ++ [4; 5]%Z) /\
  ((5 < 3)%Z ->
   pad_max_instances item_scalar [1; 2; 3; 4; 5]%Z 3 0%Z =
   [1; 2; 3; 4; 5]%Z ++ repeat 0%Z (3 - 5)).
Proof.
  assert (H : (0 < 3 < 2147483648)%Z) by lia.
  exact (conj H (pad_max_instances_length_exact
                   (@item_scalar Z) [1; 2; 3; 4; 5]%Z 0%Z H)).
Defined.

Lemma pad_max_instances_idempotent_witness :
  Z.of_nat (length [1; 2; 3]%Z) = 3%Z /\
  pad_max_instances item_scalar [1; 2; 3]%Z 3 0%Z = [1; 2; 3]%Z /\
  pad_max_instances item_scalar
    (pad_max_instances item_scalar [1; 2; 3]%Z 3 0%Z) 3 0%Z =
  pad_max_instances item_scalar [1; 2; 3]%Z 3 0%Z.
Proof.
  assert (H : Z.of_nat (length [1; 2; 3]%Z) = 3%Z) by reflexivity.
  exact (conj H (pad_max_instances_idempotent
                   (@item_scalar Z) [1; 2; 3]%Z 0%Z H)).
Defined.

Lemma pad_then_truncate_roundtrip_witness :
  (Z.of_nat (length [[1; 2]; [3; 4]]%Z) <= 5)%Z /\
  pad_max_instances (item_row 2)
    (pad_max_instances (item_row 2) [[1; 2]; [3; 4]]%Z 5 0%Z)
    (Z.of_nat (length [[1; 2]; [3; 4]]%Z)) 7%Z =
  [[1; 2]; [3; 4]]%Z.
Proof.
  assert (H : (Z.of_nat (length [[1; 2]; [3; 4]]%Z) <= 5)%Z)
    by (simpl; lia).
  exact (conj H (pad_then_truncate_roundtrip
                   (@item_row Z 2) [[1; 2]; [3; 4]]%Z 0%Z 7%Z H)).
Defined.

Lemma slot0_best_anchor_witness :
  (1 <= length anchors_3)%nat /\ (1 <= length [box_centre])%nat /\
  exists rows,
    get_best_anchor compute_iou_spec [box_centre] anchors_3 416 416 = OK rows
    /\ length rows = length [box_centre] /\
    forall b, (b < length [box_centre])%nat ->
      let slot0 := nth 0 (nth b rows []) sentinel in
      is_sentinel slot0 = false /\
      exists a, (a < length anchors_3)%nat /\
        slot0 = cast_float32 (Z.of_nat a) /\
        (forall a', (a' < length anchors_3)%nat ->
           iou_at (iou_raw_of compute_iou_spec [box_centre] anchors_3 416 416)
                  a' b <=
           iou_at (iou_raw_of compute_iou_spec [box_centre] anchors_3 416 416)
                  a b) /\
        (forall a', (a' < a)%nat ->
           iou_at (iou_raw_of compute_iou_spec [box_centre] anchors_3 416 416)
                  a' b <
           iou_at (iou_raw_of compute_iou_spec [box_centre] anchors_3 416 416)
                  a b).
Proof.
  assert (HA : (1 <= length anchors_3)%nat) by (simpl; lia).
  assert (HB : (1 <= length [box_centre])%nat) by (simpl; lia).
  exact (conj HA (conj HB (slot0_best_anchor compute_iou_spec [box_centre]
                             anchors_3 416 416 HA HB))).
Defined.

Lemma num_k_batch_maximum_witness :
  has_shape 3 2 iou_3x2 /\ (1 <= 3)%nat /\
  num_k_of 2 iou_3x2 = 3%Z /\
  match_anchors 3 2 iou_3x2 =
  OK (map (assignment 3) (transpose 2 iou_3x2)).
Proof.
  assert (HA : (1 <= 3)%nat) by lia.
  destruct (num_k_batch_maximum iou_3x2_shape HA) as [Hk [_ Hrows]].
  exact (conj iou_3x2_shape (conj HA (conj Hk Hrows))).
Defined.

Lemma slots_index_or_sentinel_witness :
  has_shape 3 2 iou_3x2 /\ match_anchors 3 2 iou_3x2 = OK rows_3x2 /\
  Forall (Forall (fun q => exists z : Z,
                      q = cast_float32 z /\
                      (z = (-1)%Z \/ (0 <= z < Z.of_nat 3)%Z))) rows_3x2.
Proof.
  exact (conj iou_3x2_shape
           (conj iou_3x2_rows
                 (slots_index_or_sentinel iou_3x2_shape iou_3x2_rows))).
Defined.

Lemma five_slots_pad_or_truncate_witness :
  has_shape 3 2 iou_3x2 /\ (1 <= 3)%nat /\
  exists rows,
    match_anchors 3 2 iou_3x2 = OK rows /\ length rows = 2%nat /\
    Forall (fun r => length r = 5%nat) rows /\
    ((num_k_of 2 iou_3x2 < 5)%Z ->
     Forall (fun r => skipn (Z.to_nat (num_k_of 2 iou_3x2)) r =
                      repeat sentinel (5 - Z.to_nat (num_k_of 2 iou_3x2)))
            rows) /\
    ((5 < num_k_of 2 iou_3x2)%Z ->
     rows = map (fun row => map cast_float32
                              (firstn 5 (ranked_slots (num_k_of 2 iou_3x2)
                                                      row)))
                (transpose 2 iou_3x2)).
Proof.
  assert (HA : (1 <= 3)%nat) by lia.
  exact (conj iou_3x2_shape
           (conj HA (five_slots_pad_or_truncate iou_3x2_shape HA))).
Defined.

Lemma assignment_of_box_witness :
  has_shape 3 2 iou_3x2 /\ match_anchors 3 2 iou_3x2 = OK rows_3x2 /\
  (0 < 2)%nat /\
  (accepted_count (nth 0 (transpose 2 iou_3x2) []) < 5)%Z /\
  exists best : list Z,
    nth 0 rows_3x2 [] = map cast_float32 best ++ repeat sentinel (5 - 3) /\
    length best = 3%nat /\
    non_sentinel_count (nth 0 rows_3x2 []) = 3%Z /\
    Forall (fun i => (0 <= i < 3)%Z) best /\
    (forall n, (1 <= n < 3)%nat ->
               threshold < iou_at iou_3x2 (Z.to_nat (nth n best (-1)%Z)) 0) /\
    (forall n n', (n < n' < 3)%nat ->
       iou_at iou_3x2 (Z.to_nat (nth n' best (-1)%Z)) 0 <=
       iou_at iou_3x2 (Z.to_nat (nth n best (-1)%Z)) 0).
Proof.
  assert (Hb : (0 < 2)%nat) by lia.
  assert (Hc : (accepted_count (nth 0 (transpose 2 iou_3x2) []) < 5)%Z)
    by reflexivity.
  exact (conj iou_3x2_shape
           (conj iou_3x2_rows
                 (conj Hb (conj Hc (assignment_of_box iou_3x2_shape
                                      iou_3x2_rows Hb Hc))))).
Defined.

Lemma get_best_anchor_ignores_centres_witness :
  (forall x y x' y' w h aw ah,
      iou_at_one_centre (mkBox x y w h) (mkBox x y aw ah) =
      iou_at_one_centre (mkBox x' y' w h) (mkBox x' y' aw ah)) /\
  map (fun b => (bw b, bh b)) [box_origin; box_centre]
  = map (fun b => (bw b, bh b)) [box_corner; box_origin] /\
  get_best_anchor iou_at_one_centre [box_origin; box_centre] anchors_3
                  416 416 =
  get_best_anchor iou_at_one_centre [box_corner; box_origin] anchors_3
                  416 416.
Proof.
  assert (Hiou : forall x y x' y' w h aw ah,
             iou_at_one_centre (mkBox x y w h) (mkBox x y aw ah) =
             iou_at_one_centre (mkBox x' y' w h) (mkBox x' y' aw ah)).
  { intros. unfold iou_at_one_centre. simpl.
    rewrite !Qeq_bool_refl. reflexivity. }
  assert (H : map (fun b => (bw b, bh b)) [box_origin; box_centre]
              = map (fun b => (bw b, bh b)) [box_corner; box_origin])
    by reflexivity.
  exact (conj Hiou
           (conj H (get_best_anchor_ignores_centres iou_at_one_centre
                      [box_origin; box_centre] [box_corner; box_origin]
                      anchors_3 416 416 Hiou H))).
Defined.

Lemma no_box_is_legal_witness :
  (1 <= length anchors_3)%nat /\ (0 <= 3 < 2147483648)%Z /\
  iou_raw_of compute_iou_spec [] anchors_3 416 416
  = repeat [] (length anchors_3) /\
  exists rows,
    get_best_anchor compute_iou_spec [] anchors_3 416 416 = OK rows /\
    rows = [] /\
    pad_max_instances (item_row 5) rows 3 (-1) =
    repeat (repeat (-1) 5) (Z.to_nat 3).
Proof.
  assert (HA : (1 <= length anchors_3)%nat) by (simpl; lia).
  assert (Hm : (0 <= 3 < 2147483648)%Z) by lia.
  exact (conj HA (conj Hm (no_box_is_legal compute_iou_spec anchors_3
                             416 416 (-1) HA Hm))).
Defined.

(** * Further properties *)

(** ** The assignment of one box *)

Lemma match_anchors_row (A B : nat) (iou_raw rows : list (list Q)) (b : nat) :
  has_shape A B iou_raw -> match_anchors A B iou_raw = OK rows ->
  (b < B)%nat ->
  nth b rows [] = slots_of_ranking (nth b (transpose B iou_raw) []).
Proof.
  intros Hsh Hret Hb.
  pose proof (match_anchors_returns _ _ _ Hret) as HA.
  rewrite (match_anchors_closed Hsh HA) in Hret. injection Hret as <-.
  destruct (transpose_shape Hsh) as [Hl _].
  apply nth_map_in. lia.
Qed.

Lemma slots_of_ranking_split (row : list Q) :
  (1 <= length row)%nat ->
  let m := Nat.min (Nat.max 1 (count_accepted (ranking row))) 5 in
  slots_of_ranking row =
  map cast_float32 (firstn m (map fst (ranking row)))
  ++ repeat sentinel (5 - m) /\
  length (firstn m (map fst (ranking row))) = m /\
  Z.of_nat m = Z.min (Z.max 1 (accepted_count row)) 5.
Proof.
  intros Hlen. cbv zeta. unfold slots_of_ranking. cbv zeta.
  pose proof (accepted_count_le row) as Hc.
  rewrite <- count_accepted_ranking in *.
  set (cn := count_accepted (ranking row)) in *.
  split; [now rewrite map_app, map_cast_sentinels |].
  split; [| lia].
  rewrite length_firstn, length_map, ranking_length. lia.
Qed.

Lemma slot_of_ranking (row : list Q) (n : nat) :
  (1 <= length row)%nat ->
  (n < Nat.min (Nat.max 1 (count_accepted (ranking row))) 5)%nat ->
  nth n (slots_of_ranking row) sentinel =
  cast_float32 (nth n (map fst (ranking row)) (-1)%Z).
Proof.
  intros Hlen Hn.
  destruct (slots_of_ranking_split row Hlen) as [-> [Hm _]].
  rewrite app_nth1 by (rewrite length_map, Hm; exact Hn).
  rewrite nth_map_in with (dx := (-1)%Z) by (rewrite Hm; exact Hn).
  rewrite nth_firstn.
  destruct (Nat.ltb_spec n
              (Nat.min (Nat.max 1 (count_accepted (ranking row))) 5));
    [reflexivity | lia].
Qed.

Lemma slot_sentinel (row : list Q) (n : nat) :
  (1 <= length row)%nat ->
  (Nat.min (Nat.max 1 (count_accepted (ranking row))) 5 <= n)%nat ->
  nth n (slots_of_ranking row) sentinel = sentinel.
Proof.
  intros Hlen Hn.
  destruct (slots_of_ranking_split row Hlen) as [-> [Hm _]].
  rewrite app_nth2 by (rewrite length_map, Hm; exact Hn).
  apply nth_repeat.
Qed.

Lemma cast_float32_inj (z z' : Z) : cast_float32 z = cast_float32 z' -> z = z'.
Proof. unfold cast_float32, inject_Z. now intros [= ->]. Qed.

Lemma map_fst_combine (X Y : Type) (a : list X) (b : list Y) :
  length a = length b -> map fst (combine a b) = a.
Proof.
  revert b. induction a as [| x a IH]; intros [| y b] H; simpl in *;
    try discriminate; [reflexivity |].
  f_equal. apply IH. lia.
Qed.

Lemma ranking_indices_nodup (row : list Q) : NoDup (map fst (ranking row)).
Proof.
  unfold ranking.
  apply Permutation_NoDup with (map fst (enumerate row)).
  - apply Permutation_map. symmetry. apply sort_desc_perm.
  - unfold enumerate.
    rewrite map_fst_combine by (now rewrite length_map, length_seq).
    generalize (seq_NoDup (length row) 0). generalize (seq 0 (length row)).
    intros l Hl. induction Hl as [| x l Hx Hl IH]; simpl; constructor; auto.
    intros Hin. apply in_map_iff in Hin. destruct Hin as [y [Hy Hin]].
    apply Nat2Z.inj in Hy. now subst.
Qed.

Lemma firstn_nodup (X : Type) (n : nat) (l : list X) :
  NoDup l -> NoDup (firstn n l).
Proof.
  intros H. rewrite <- (firstn_skipn n l) in H.
  now apply NoDup_app_remove_r in H.
Qed.

Lemma sorted_nth_rejected (l : list (Z * Q)) (d : Z * Q) (n : nat) :
  StronglySorted before l -> (count_accepted l <= n < length l)%nat ->
  accepted (nth n l d) = false.
Proof.
  intros H. revert n. unfold count_accepted.
  induction H as [| p l Hs IH Hp]; intros n Hn; simpl in Hn; [lia |].
  destruct (accepted p) eqn:E; simpl in Hn.
  - destruct n as [| n]; [lia |]. simpl. apply IH. lia.
  - destruct n as [| n]; simpl; [assumption |].
    pose proof (rejected_tail E Hp) as Hrej. rewrite Forall_forall in Hrej.
    apply Hrej, nth_In. lia.
Qed.

(** X1: Whatever the accepted count [c] of a box: its assignment is
    [min (max 1 c) 5] anchor indices, all of them in the catalog and no
    two equal, followed by the sentinel only. *)
Theorem assignment_indices_then_sentinels (A B : nat)
  (iou_raw rows : list (list Q)) (b : nat)
  (Hshape : has_shape A B iou_raw)
  (Hret : match_anchors A B iou_raw = OK rows) (Hb : (b < B)%nat) :
  let c := accepted_count (nth b (transpose B iou_raw) []) in
  let m := Z.min (Z.max 1 c) 5 in
  exists best : list Z,
    nth b rows [] = map cast_float32 best ++ repeat sentinel (5 - Z.to_nat m)
    /\ Z.of_nat (length best) = m
    /\ Forall (fun i => (0 <= i < Z.of_nat A)%Z) best
    /\ NoDup best
    /\ non_sentinel_count (nth b rows []) = m.
Proof.
  cbv zeta. pose proof (match_anchors_returns _ _ _ Hret) as HA.
  rewrite (match_anchors_row Hshape Hret Hb).
  destruct (transpose_row Hshape Hb) as [Hlen _].
  set (row := nth b (transpose B iou_raw) []) in *.
  destruct (slots_of_ranking_split row) as [Hsplit [Hm Hmz]]; [lia |].
  rewrite <- Hmz, Nat2Z.id. rewrite Hsplit.
  set (m := Nat.min (Nat.max 1 (count_accepted (ranking row))) 5) in *.
  assert (Hrange : Forall (fun i => (0 <= i < Z.of_nat A)%Z)
                          (firstn m (map fst (ranking row)))).
  { apply Forall_forall. intros z Hz. apply in_firstn in Hz.
    apply in_map_iff in Hz. destruct Hz as [[i v] [<- Hin]].
    apply ranking_in in Hin. destruct Hin as [n [-> Hn]]. simpl.
    assert (n < length row)%nat by (apply nth_error_Some; congruence). lia. }
  exists (firstn m (map fst (ranking row))).
  split; [reflexivity |]. split; [lia |]. split; [exact Hrange |].
  split; [apply firstn_nodup, ranking_indices_nodup |].
  rewrite non_sentinel_count_app, non_sentinel_count_sentinels.
  rewrite non_sentinel_count_indices.
  - lia.
  - eapply Forall_impl; [| exact Hrange]. simpl. intros; lia.
Qed.

(** X2: An anchor whose overlap with a box exceeds the threshold is in the
    assignment of the box, unless the five slots hold five anchors whose
    overlaps are at least as large. *)
Theorem accepted_anchor_listed_or_outranked (A B : nat)
  (iou_raw rows : list (list Q)) (b a : nat)
  (Hshape : has_shape A B iou_raw)
  (Hret : match_anchors A B iou_raw = OK rows)
  (Hb : (b < B)%nat) (Ha : (a < A)%nat)
  (Hacc : threshold < iou_at iou_raw a b) :
  (exists n, (n < 5)%nat /\
             nth n (nth b rows []) sentinel = cast_float32 (Z.of_nat a)) \/
  (forall n, (n < 5)%nat ->
     exists a', (a' < A)%nat /\
       nth n (nth b rows []) sentinel = cast_float32 (Z.of_nat a') /\
       iou_at iou_raw a b <= iou_at iou_raw a' b).
Proof.
  rewrite (match_anchors_row Hshape Hret Hb).
  destruct (transpose_row Hshape Hb) as [Hlen Hnth].
  set (row := nth b (transpose B iou_raw) []) in *.
  pose proof (ranking_sorted row) as Hs.
  pose proof (ranking_length row) as Hrl.
  assert (Hin : In (Z.of_nat a, nth a row 0) (ranking row)).
  { apply ranking_in. exists a. split; [reflexivity |].
    apply nth_error_nth'. lia. }
  apply In_nth with (d := ((-1)%Z, 0)) in Hin. destruct Hin as [p [Hp Hv]].
  assert (Hpc : (p < count_accepted (ranking row))%nat).
  { destruct (Nat.lt_ge_cases p (count_accepted (ranking row))) as [H | H];
      [assumption |].
    assert (Hrej : accepted (nth p (ranking row) ((-1)%Z, 0)) = false)
      by (apply sorted_nth_rejected; [assumption | lia]).
    rewrite Hv in Hrej. apply Qgtb_false in Hrej. simpl in Hrej.
    rewrite Hnth in Hrej by lia. exfalso. now apply (Qlt_not_le _ _ Hacc). }
  set (m := Nat.min (Nat.max 1 (count_accepted (ranking row))) 5).
  assert (Hidx : forall n, nth n (map fst (ranking row)) (-1)%Z =
                           fst (nth n (ranking row) ((-1)%Z, 0)))
    by (intros n; exact (map_nth fst (ranking row) ((-1)%Z, 0) n)).
  destruct (Nat.lt_ge_cases p m) as [Hpm | Hpm].
  - left. exists p. split; [lia |].
    rewrite slot_of_ranking by (fold m; lia). now rewrite Hidx, Hv.
  - right. intros n Hn. assert (Hm5 : m = 5%nat) by lia.
    destruct (ranking_nth_index row (n := n)) as [Hi Hvn]; [lia |].
    exists (Z.to_nat (nth n (map fst (ranking row)) (-1)%Z)).
    split; [lia |]. split.
    + rewrite slot_of_ranking by (fold m; lia). f_equal. lia.
    + rewrite <- !Hnth by lia.
      assert (Hbef : before (nth n (ranking row) ((-1)%Z, 0))
                            (nth p (ranking row) ((-1)%Z, 0)))
        by (apply sorted_nth; [assumption | lia]).
      rewrite Hvn, Hv in Hbef. exact (before_le Hbef).
Qed.

(** X3: Two slots of an assignment that hold anchors of equal overlap hold them
    by ascending anchor index. *)
Theorem equal_overlaps_by_index (A B : nat) (iou_raw rows : list (list Q))
  (b n n' a a' : nat)
  (Hshape : has_shape A B iou_raw)
  (Hret : match_anchors A B iou_raw = OK rows)
  (Hb : (b < B)%nat) (Hn : (n < n' < 5)%nat)
  (Hslot : nth n (nth b rows []) sentinel = cast_float32 (Z.of_nat a))
  (Hslot' : nth n' (nth b rows []) sentinel = cast_float32 (Z.of_nat a'))
  (Heq : iou_at iou_raw a b == iou_at iou_raw a' b) :
  (a < a')%nat.
Proof.
  rewrite (match_anchors_row Hshape Hret Hb) in Hslot, Hslot'.
  destruct (transpose_row Hshape Hb) as [Hlen Hnth].
  pose proof (match_anchors_returns _ _ _ Hret) as HA.
  set (row := nth b (transpose B iou_raw) []) in *.
  set (m := Nat.min (Nat.max 1 (count_accepted (ranking row))) 5).
  assert (Hlt : forall k x, nth k (slots_of_ranking row) sentinel =
                            cast_float32 (Z.of_nat x) -> (k < m)%nat).
  { intros k x Hk. destruct (Nat.lt_ge_cases k m) as [H | H]; [assumption |].
    rewrite slot_sentinel in Hk by (fold m; lia).
    apply cast_float32_inj in Hk. lia. }
  pose proof (Hlt _ _ Hslot) as Hnm. pose proof (Hlt _ _ Hslot') as Hnm'.
  rewrite slot_of_ranking in Hslot, Hslot' by (fold m; lia).
  apply cast_float32_inj in Hslot, Hslot'.
  pose proof (accepted_count_le row) as Hc.
  rewrite <- count_accepted_ranking in Hc.
  destruct (ranking_nth_index row (n := n)) as [_ Hv]; [lia |].
  destruct (ranking_nth_index row (n := n')) as [_ Hv']; [lia |].
  rewrite Hslot, Nat2Z.id in Hv. rewrite Hslot', Nat2Z.id in Hv'.
  assert (Hbef : before (nth n (ranking row) ((-1)%Z, 0))
                        (nth n' (ranking row) ((-1)%Z, 0)))
    by (apply sorted_nth; [apply ranking_sorted | rewrite ranking_length; lia]).
  rewrite Hv, Hv' in Hbef. destruct Hbef as [Hbef | [_ Hbef]]; simpl in Hbef.
  - exfalso.
    assert (Ha : (a < A)%nat).
    { destruct (ranking_nth row (n := n)) as [x [Hx Hx']]; [lia |].
      rewrite Hv in Hx'. injection Hx' as Hx' _.
      apply Nat2Z.inj in Hx'. lia. }
    assert (Ha' : (a' < A)%nat).
    { destruct (ranking_nth row (n := n')) as [x [Hx Hx']]; [lia |].
      rewrite Hv' in Hx'. injection Hx' as Hx' _.
      apply Nat2Z.inj in Hx'. lia. }
    rewrite !Hnth in Hbef by assumption. rewrite Heq in Hbef.
    now apply (Qlt_irrefl (iou_at iou_raw a' b)).
  - lia.
Qed.

(** X4: The assignment of a box is the one it gets when it is matched alone:
    the other boxes passed with it change the width of the ranking and not
    the five slots. *)
Theorem assignment_independent_of_batch (A B : nat)
  (iou_raw rows : list (list Q)) (b : nat)
  (Hshape : has_shape A B iou_raw)
  (Hret : match_anchors A B iou_raw = OK rows) (Hb : (b < B)%nat) :
  match_anchors A 1 (map (fun r => [nth b r 0]) iou_raw)
  = OK [nth b rows []].
Proof.
  pose proof (match_anchors_returns _ _ _ Hret) as HA.
  rewrite (match_anchors_row Hshape Hret Hb).
  destruct (transpose_row Hshape Hb) as [Hlen Hnth].
  assert (Hcol : has_shape A 1 (map (fun r => [nth b r 0]) iou_raw)).
  { destruct Hshape as [Hl _]. split; [now rewrite length_map |].
    apply Forall_forall. intros r Hr. apply in_map_iff in Hr.
    now destruct Hr as [x [<- _]]. }
  rewrite (match_anchors_closed Hcol HA). f_equal.
  assert (Ht : transpose 1 (map (fun r => [nth b r 0]) iou_raw) =
               [map (fun r => nth b r 0) iou_raw]).
  { clear. induction iou_raw as [| r t IH]; simpl; [reflexivity |].
    now rewrite IH. }
  rewrite Ht. simpl. do 2 f_equal.
  destruct Hshape as [Hl Hrows].
  apply nth_ext with (d := 0) (d' := 0).
  - now rewrite length_map, Hlen.
  - intros a Ha. rewrite length_map in Ha.
    rewrite ?Hnth by lia. unfold iou_at.
    rewrite nth_map_in with (dx := @nil Q) by lia. reflexivity.
Qed.

(** X5: [get_best_anchor] raises exactly when the catalog has no anchor:
    [tf.math.top_k] is then asked for one column of a tensor that has none;
    with an anchor the width of the ranking never exceeds the catalog. *)
Theorem get_best_anchor_raises_iff (compute_iou : Box -> Box -> Q)
  (y_true : list Box) (anchors : list (Q * Q)) (width height : Q) :
  get_best_anchor compute_iou y_true anchors width height = InvalidArgument
  <-> anchors = [].
Proof.
  unfold get_best_anchor. split.
  - intros H. destruct anchors as [| a l]; [reflexivity |]. exfalso.
    rewrite match_anchors_rows in H;
      [discriminate | apply iou_raw_of_shape | simpl; lia].
  - intros ->. apply match_anchors_no_anchor.
Qed.

(** X7: The assignments of an image padded to [max_count] instances, for a
    count that is an int32, make a tensor of shape [[max_count, 5]]. *)
Theorem padded_assignments_shape (compute_iou : Box -> Box -> Q)
  (y_true : list Box) (anchors : list (Q * Q)) (width height : Q)
  (rows : list (list Q)) (max_count : Z) (pad_value : Q)
  (Hret : get_best_anchor compute_iou y_true anchors width height = OK rows)
  (Hmax : (0 <= max_count < 2147483648)%Z) :
  has_shape (Z.to_nat max_count) 5
            (pad_max_instances (item_row 5) rows max_count pad_value).
Proof.
  unfold get_best_anchor in Hret.
  pose proof (match_anchors_returns _ _ _ Hret) as HA.
  pose proof (iou_raw_of_shape compute_iou y_true anchors width height)
    as Hshape.
  rewrite (match_anchors_closed Hshape HA) in Hret. injection Hret as <-.
  destruct (transpose_shape Hshape) as [_ Hrows].
  split; [now apply pad_length |].
  assert (H5 : Forall (fun r : list Q => length r = 5%nat)
                 (map slots_of_ranking
                      (transpose (length y_true)
                         (iou_raw_of compute_iou y_true anchors width height)))).
  { apply Forall_forall. intros r Hr. apply in_map_iff in Hr.
    destruct Hr as [row [<- Hrow]]. rewrite Forall_forall in Hrows.
    destruct (slots_of_ranking_split row) as [-> [Hm _]];
      [rewrite (Hrows row Hrow); lia |].
    rewrite length_app, length_map, repeat_length, Hm. lia. }
  set (t := map slots_of_ranking _) in *.
  destruct (Z.lt_ge_cases max_count (Z.of_nat (length t))) as [Hlt | Hge].
  - rewrite pad_longer by lia. apply Forall_forall. intros r Hr.
    apply in_firstn in Hr. rewrite Forall_forall in H5. now apply H5.
  - rewrite pad_shorter by lia. apply Forall_app. split; [exact H5 |].
    apply Forall_forall. intros r Hr. apply repeat_spec in Hr. subst.
    apply repeat_length.
Qed.

(** ** The padder, further *)

Section PadMaxInstancesFurther.
Variables T S : Type.
Variable ones_times : S -> T.

(** X8: A negative count that is an int32 never pads and never raises: the
    slice [value[:instances]] drops the last [- instances] items. *)
Theorem pad_max_instances_negative_count (value : list T) (instances : Z)
  (p : S) (Hneg : (-2147483648 <= instances < 0)%Z) :
  pad_max_instances ones_times value instances p =
  firstn (length value - Z.to_nat (- instances)) value /\
  length (pad_max_instances ones_times value instances p) =
  (length value - Z.to_nat (- instances))%nat.
Proof.
  assert (H : pad_max_instances ones_times value instances p =
              firstn (length value - Z.to_nat (- instances)) value).
  { unfold pad_max_instances, slice_to. rewrite to_int32_small by lia.
    destruct (Z.ltb_spec instances (Z.of_nat (length value))); [| lia].
    destruct (Z.ltb_spec instances 0); [| lia]. f_equal. lia. }
  split; [exact H |]. rewrite H, length_firstn. lia.
Qed.

(** X9: Padding to [n] and then to a smaller count [m], with one pad value, is
    padding to [m], for counts that are int32. *)
Theorem pad_max_instances_twice (value : list T) (n m : Z) (p : S)
  (Hm : (0 <= m <= n)%Z) (Hn : (n < 2147483648)%Z) :
  pad_max_instances ones_times (pad_max_instances ones_times value n p) m p =
  pad_max_instances ones_times value m p.
Proof.
  destruct (Z.eq_dec m n) as [-> | Hne]; [apply pad_twice; lia |].
  rewrite (pad_longer ones_times (pad_max_instances ones_times value n p) p)
    by (rewrite pad_length; lia).
  destruct (Z.lt_ge_cases n (Z.of_nat (length value))) as [Hlt | Hge].
  - rewrite !pad_longer by lia. rewrite firstn_firstn. f_equal. lia.
  - rewrite (pad_shorter ones_times value p (conj Hge Hn)).
    destruct (Z.lt_ge_cases m (Z.of_nat (length value))) as [Hlt' | Hge'].
    + rewrite pad_longer by lia. rewrite firstn_app.
      replace (Z.to_nat m - length value)%nat with 0%nat by lia.
      simpl. apply app_nil_r.
    + rewrite pad_shorter by lia. rewrite firstn_app, firstn_all2 by lia.
      f_equal. rewrite firstn_repeat. f_equal. lia.
Qed.

End PadMaxInstancesFurther.

Section PadMaxInstancesParallel.
Variables T T' S S' : Type.
Variable ones_times : S -> T.
Variable ones_times' : S' -> T'.

Lemma combine_repeat (X Y : Type) (x : X) (y : Y) (n : nat) :
  combine (repeat x n) (repeat y n) = repeat (x, y) n.
Proof. induction n as [| n IH]; simpl; [reflexivity | now rewrite IH]. Qed.

Lemma combine_app_same (X Y : Type) (a a' : list X) (b b' : list Y) :
  length a = length b ->
  combine (a ++ a') (b ++ b') = combine a b ++ combine a' b'.
Proof.
  revert b. induction a as [| x a IH]; intros [| y b] H; simpl in *;
    try discriminate; [reflexivity |].
  f_equal. apply IH. lia.
Qed.

(** X10: Two tensors with as many items, padded with one count, stay aligned:
    item [i] of one result and item [i] of the other are the two items [i]
    of the inputs, or the two pad items. *)
Theorem pad_max_instances_parallel (value : list T) (value' : list T')
  (instances : Z) (p : S) (p' : S')
  (Hlen : length value = length value') :
  combine (pad_max_instances ones_times value instances p)
          (pad_max_instances ones_times' value' instances p') =
  pad_max_instances (fun q => (ones_times (fst q), ones_times' (snd q)))
                    (combine value value') instances (p, p').
Proof.
  unfold pad_max_instances, slice_to.
  rewrite length_combine, <- Hlen, Nat.min_id.
  destruct (Z.ltb_spec (to_int32 instances) (Z.of_nat (length value))).
  - destruct (Z.ltb_spec instances 0); symmetry; apply combine_firstn.
  - rewrite combine_app_same by assumption. now rewrite combine_repeat.
Qed.

End PadMaxInstancesParallel.

(** ** Boxes matched together *)

Lemma transpose_map_map (X Y W : Type) (f : X -> Y -> W) (xs : list X)
  (ys : list Y) :
  transpose (length ys) (map (fun x => map (fun y => f x y) ys) xs) =
  map (fun y => map (fun x => f x y) xs) ys.
Proof.
  induction xs as [| x xs IH]; simpl.
  - induction ys as [| y ys IH]; simpl; [reflexivity | now rewrite IH].
  - rewrite IH. apply zip_with_map.
Qed.

(** The rows of the overlap matrix by box: the overlaps of the box with
    each scaled anchor at its centre. *)
Lemma get_best_anchor_by_box (compute_iou : Box -> Box -> Q)
  (y_true : list Box) (anchors : list (Q * Q)) (width height : Q) :
  (1 <= length anchors)%nat ->
  get_best_anchor compute_iou y_true anchors width height =
  OK (map (fun b =>
             slots_of_ranking
               (map (fun a => compute_iou b (mkBox (cx b) (cy b)
                                                  (fst a / width)
                                                  (snd a / height)))
                    anchors))
          y_true).
Proof.
  intros HA. unfold get_best_anchor.
  rewrite (match_anchors_closed (iou_raw_of_shape _ _ _ _ _) HA).
  rewrite iou_raw_of_entries.
  rewrite (transpose_map_map
             (fun a b => compute_iou b (mkBox (cx b) (cy b) (fst a / width)
                                              (snd a / height)))).
  now rewrite map_map.
Qed.

(** X6: Matching two lists of boxes in one call gives the assignments of the
    first list followed by those of the second, as two calls give them. *)
Theorem get_best_anchor_app (compute_iou : Box -> Box -> Q)
  (y1 y2 : list Box) (anchors : list (Q * Q)) (width height : Q)
  (rows1 rows2 : list (list Q))
  (H1 : get_best_anchor compute_iou y1 anchors width height = OK rows1)
  (H2 : get_best_anchor compute_iou y2 anchors width height = OK rows2) :
  get_best_anchor compute_iou (y1 ++ y2) anchors width height =
  OK (rows1 ++ rows2).
Proof.
  assert (HA : (1 <= length anchors)%nat).
  { unfold get_best_anchor in H1. apply (match_anchors_returns _ _ _ H1). }
  rewrite get_best_anchor_by_box in H1, H2 |- * by assumption.
  injection H1 as <-. injection H2 as <-. now rewrite map_app.
Qed.

(** ** Translation *)

(** X11: Translating the boxes changes no assignment, where the overlap of two
    boxes at one centre is a function of their widths and heights. *)
Theorem translate_boxes_keeps_assignments (compute_iou : Box -> Box -> Q)
  (y_true : list Box) (anchors : list (Q * Q))
  (width height translate_x translate_y : Q)
  (Hiou : forall x y x' y' w h aw ah,
      compute_iou (mkBox x y w h) (mkBox x y aw ah) =
      compute_iou (mkBox x' y' w h) (mkBox x' y' aw ah)) :
  get_best_anchor compute_iou
    (translate_boxes y_true translate_x translate_y) anchors width height =
  get_best_anchor compute_iou y_true anchors width height.
Proof.
  unfold get_best_anchor, translate_boxes.
  rewrite length_map. f_equal.
  apply iou_raw_of_shapes_only; [exact Hiou |].
  rewrite map_map. reflexivity.
Qed.

(** X12: When one of the two draws is zero [random_translate] leaves the image
    as it is, and still moves the boxes by the other draw. *)
Theorem random_translate_zero_draw (Image : Type) (shape_1 : Image -> Q)
  (tfa_image_translate : Image -> Q * Q -> Image)
  (image : Image) (box : list Box) (t_x t_y : Q)
  (Hzero : t_x == 0 \/ t_y == 0) :
  random_translate shape_1 tfa_image_translate image box t_x t_y =
  (image,
   map (fun b => mkBox (cx b + t_x) (cy b + t_y) (bw b) (bh b)) box).
Proof.
  unfold random_translate, translate_image, translate_boxes.
  assert (H : negb (Qeq_bool t_x 0) && negb (Qeq_bool t_y 0) = false).
  { apply andb_false_iff.
    destruct Hzero as [H | H]; [left | right];
      apply negb_false_iff; now apply Qeq_bool_iff. }
  now rewrite H.
Qed.

(** ** Anchor boxes kept as strings *)

Module ConfigFacts.
Import String Ascii Py YoloConfigs.

Lemma numeric_char (c : ascii) :
  is_numeric c = true ->
  is_space c = false /\ Ascii.eqb c ","%char = false /\
  Ascii.eqb c "_"%char = false.
Proof.
  destruct c as [[|] [|] [|] [|] [|] [|] [|] [|]]; intros H;
    vm_compute in H; try discriminate H; vm_compute; auto.
Qed.

Lemma string_length_append (s t : string) :
  String.length (s ++ t)%string = (String.length s + String.length t)%nat.
Proof. induction s as [| c s IH]; simpl; [reflexivity | now rewrite IH]. Qed.

Lemma substring_prefix (s t : string) :
  substring 0 (String.length s) (s ++ t)%string = s.
Proof.
  induction s as [| c s IH]; simpl.
  - now destruct t.
  - now rewrite IH.
Qed.

Lemma slice_str_list (l : list Z) :
  slice_1_minus_1 (str_list l) = concat ", "%string (map repr_int l).
Proof.
  unfold slice_1_minus_1, str_list.
  set (body := concat ", "%string (map repr_int l)).
  change ("[" ++ body ++ "]")%string with (String "["%char (body ++ "]")%string).
  cbn [String.length]. rewrite string_length_append. simpl String.length.
  replace (Datatypes.S (String.length body + 1) - 2)%nat
    with (String.length body) by lia.
  cbn [substring]. destruct (String.length body) eqn:E.
  - destruct body; [now destruct ("]"%string) | discriminate].
  - rewrite <- E. apply substring_prefix.
Qed.

(** *** Decimal literals *)

Lemma uint_string_numeric (u : Decimal.uint) :
  all_chars is_numeric (DecimalString.NilEmpty.string_of_uint u) = true.
Proof. induction u; simpl; auto. Qed.

Lemma uint_string_numeric_zero (u : Decimal.uint) :
  all_chars is_numeric (DecimalString.NilZero.string_of_uint u) = true.
Proof. destruct u; try reflexivity; apply uint_string_numeric. Qed.

Lemma repr_int_numeric (z : Z) : all_chars is_numeric (repr_int z) = true.
Proof.
  unfold repr_int. destruct (Z.to_int z) as [u | u]; simpl.
  - apply uint_string_numeric_zero.
  - apply uint_string_numeric_zero.
Qed.

Lemma drop_underscores_numeric (s : string) :
  all_chars is_numeric s = true -> drop_underscores true s = Some s.
Proof.
  induction s as [| c s IH]; simpl; [reflexivity |].
  intros H. apply andb_true_iff in H. destruct H as [Hc Hs].
  destruct (numeric_char c Hc) as [_ [_ ->]]. now rewrite IH.
Qed.

Lemma int_digits_uint (u : Decimal.uint) :
  int_digits (DecimalString.NilZero.string_of_uint u) = Some (Z.of_uint u).
Proof.
  destruct u; try reflexivity; unfold int_digits;
    cbn [DecimalString.NilZero.string_of_uint
         DecimalString.NilEmpty.string_of_uint drop_underscores];
    match goal with
    | |- context [Ascii.eqb ?c "_"%char] =>
        change (Ascii.eqb c "_"%char) with false
    end; cbv iota;
    rewrite drop_underscores_numeric by apply uint_string_numeric;
    cbn [option_map];
    match goal with
    | |- context [DecimalString.NilEmpty.uint_of_string (String ?c ?s)] =>
        change (DecimalString.NilEmpty.uint_of_string (String c s))
          with (DecimalString.uint_of_char c
                  (DecimalString.NilEmpty.uint_of_string s))
    end;
    rewrite DecimalString.NilEmpty.usu; reflexivity.
Qed.

Lemma rstrip_numeric (s : string) :
  all_chars is_numeric s = true -> rstrip s = s.
Proof.
  induction s as [| c s IH]; simpl; [reflexivity |].
  intros H. apply andb_true_iff in H. destruct H as [Hc Hs].
  rewrite (IH Hs). destruct (numeric_char c Hc) as [-> _].
  now destruct s.
Qed.

Lemma strip_numeric (s : string) :
  all_chars is_numeric s = true -> strip s = s.
Proof.
  intros H. unfold strip.
  assert (Hl : lstrip s = s).
  { destruct s as [| c s]; [reflexivity |]. simpl in *.
    apply andb_true_iff in H. destruct H as [Hc _].
    now destruct (numeric_char c Hc) as [-> _]. }
  rewrite Hl. now apply rstrip_numeric.
Qed.

Lemma strip_space_numeric (s : string) :
  all_chars is_numeric s = true -> strip (String " "%char s) = s.
Proof.
  intros H. unfold strip. change (lstrip (String " "%char s)) with (lstrip s).
  now apply strip_numeric.
Qed.

Lemma int_repr_int (z : Z) : Py.int (repr_int z) = Returns z.
Proof.
  unfold Py.int. rewrite strip_numeric by apply repr_int_numeric.
  pose proof (DecimalZ.of_to z) as Hz. unfold repr_int.
  destruct (Z.to_int z) as [u | u]; simpl in Hz;
    cbn [DecimalString.NilZero.string_of_int].
  - pose proof (int_digits_uint u) as Hd.
    destruct u; cbn in Hd |- *; rewrite ?Hd; now rewrite <- Hz.
  - change (Ascii.eqb "-"%char "-"%char) with true. cbv iota.
    rewrite int_digits_uint. cbn [option_map]. now rewrite Hz.
Qed.
(** *** Splitting at the commas *)

Lemma split_numeric (s : string) :
  all_chars is_numeric s = true -> split ","%char s = [s].
Proof.
  induction s as [| c s IH]; simpl; [reflexivity |].
  intros H. apply andb_true_iff in H. destruct H as [Hc Hs].
  destruct (numeric_char c Hc) as [_ [-> _]]. now rewrite (IH Hs).
Qed.

Lemma split_numeric_comma (s t : string) :
  all_chars is_numeric s = true ->
  split ","%char (s ++ String ","%char t)%string = s :: split ","%char t.
Proof.
  induction s as [| c s IH]; simpl; [reflexivity |].
  intros H. apply andb_true_iff in H. destruct H as [Hc Hs].
  destruct (numeric_char c Hc) as [_ [-> _]]. now rewrite (IH Hs).
Qed.

Lemma split_joined (x : string) (xs : list string) :
  Forall (fun s => all_chars is_numeric s = true) (x :: xs) ->
  split ","%char (concat ", "%string (x :: xs)) =
  x :: map (String " "%char) xs.
Proof.
  revert x. induction xs as [| y ys IH]; intros x H.
  - inversion H; subst. now apply split_numeric.
  - inversion H as [| ? ? Hx Hrest]; subst.
    change (concat ", "%string (x :: y :: ys))
      with (x ++ String ","%char
                   (String " "%char (concat ", "%string (y :: ys))))%string.
    rewrite split_numeric_comma by assumption.
    cbn [split]. change (Ascii.eqb " "%char ","%char) with false. cbv iota.
    now rewrite (IH y Hrest).
Qed.

Lemma traverse_pieces (z : Z) (zs : list Z) :
  traverse (fun b => Py.int (strip b))
           (repr_int z :: map (String " "%char) (map repr_int zs)) =
  Returns (z :: zs).
Proof.
  cbn [traverse].
  rewrite strip_numeric, int_repr_int by apply repr_int_numeric.
  assert (H : traverse (fun b => Py.int (strip b))
                       (map (String " "%char) (map repr_int zs)) = Returns zs).
  { induction zs as [| y ys IH]; [reflexivity |]. cbn [map traverse].
    rewrite strip_space_numeric, int_repr_int by apply repr_int_numeric.
    now rewrite IH. }
  now rewrite H.
Qed.

Lemma boxes_of_one (z : Z) (zs : list Z) :
  traverse (fun b => Py.int (strip b))
           (split ","%char (slice_1_minus_1 (str_list (z :: zs)))) =
  Returns (z :: zs).
Proof.
  rewrite slice_str_list. cbn [map]. rewrite split_joined.
  - apply traverse_pieces.
  - constructor; [apply repr_int_numeric |].
    apply Forall_forall. intros s Hs. apply in_map_iff in Hs.
    destruct Hs as [y [<- _]]. apply repr_int_numeric.
Qed.

Lemma boxes_of_none :
  traverse (fun b => Py.int (strip b))
           (split ","%char (slice_1_minus_1 (str_list []))) = ValueError.
Proof. reflexivity. Qed.

(** X13: Boxes of integers, none of them empty, come back from the getter as
    they were given to the setter. *)
Theorem AnchorCFG_boxes_roundtrip (box_list : list (list Z))
  (Hfull : Forall (fun box => box <> []) box_list) :
  AnchorCFG_boxes (AnchorCFG_boxes_setter box_list) = Returns box_list.
Proof.
  unfold AnchorCFG_boxes, AnchorCFG_boxes_setter.
  induction Hfull as [| box l Hbox Hl IH]; [reflexivity |].
  cbn [map traverse]. destruct box as [| z zs]; [contradiction |].
  rewrite boxes_of_one. now rewrite IH.
Qed.

(** X14: A box with no element is stored as the empty string, and the getter
    then raises [ValueError]: [int] is given the empty string. *)
Theorem AnchorCFG_boxes_empty_box (box_list : list (list Z))
  (Hempty : In [] box_list) :
  AnchorCFG_boxes (AnchorCFG_boxes_setter box_list) = ValueError.
Proof.
  unfold AnchorCFG_boxes, AnchorCFG_boxes_setter.
  induction box_list as [| box l IH]; [contradiction |].
  cbn [map traverse]. destruct box as [| z zs].
  - now rewrite boxes_of_none.
  - rewrite boxes_of_one. destruct Hempty as [H | H]; [discriminate |].
    now rewrite (IH H).
Qed.

(** *** Popping the keys of the model *)

Section Dict.
Variable V : Type.

Lemma filter_all (X : Type) (f : X -> bool) (l : list X) :
  (forall x, In x l -> f x = true) -> filter f l = l.
Proof.
  induction l as [| x l IH]; intros H; simpl; [reflexivity |].
  rewrite (H x) by now left. f_equal. apply IH. intros; apply H. now right.
Qed.

Lemma dict_pop_present (k : string) (d : dict V) :
  NoDup (map fst d) -> In k (map fst d) ->
  dict_pop k d = Returns (filter (key_not_in [k]) d).
Proof.
  unfold key_not_in.
  induction d as [| [k' v] d IH]; intros Hnd Hin; [contradiction |].
  inversion Hnd as [| ? ? Hk' Hnd']; subst. cbn [dict_pop filter existsb fst].
  rewrite (String.eqb_sym k' k), orb_false_r.
  destruct (String.eqb_spec k k') as [-> | Hne]; cbn [negb].
  - f_equal. symmetry. apply filter_all. intros [k'' v''] Hx. cbn [fst].
    rewrite orb_false_r.
    destruct (String.eqb_spec k'' k') as [-> | _]; [| reflexivity].
    exfalso. apply Hk'. apply in_map_iff. now exists (k', v'').
  - destruct Hin as [H | H]; [simpl in H; congruence |].
    now rewrite (IH Hnd' H).
Qed.

Lemma dict_pop_absent (k : string) (d : dict V) :
  ~ In k (map fst d) -> dict_pop k d = KeyError.
Proof.
  induction d as [| [k' v] d IH]; intros Hin; [reflexivity |].
  cbn [dict_pop]. destruct (String.eqb_spec k k') as [-> | Hne].
  - exfalso. apply Hin. now left.
  - rewrite IH; [reflexivity |]. intros H. apply Hin. now right.
Qed.

Lemma dict_pop_outcome (k : string) (d : dict V) :
  dict_pop k d = KeyError \/
  exists d', dict_pop k d = Returns d' /\ incl (map fst d') (map fst d).
Proof.
  induction d as [| [k' v] d IH]; [now left |].
  cbn [dict_pop]. destruct (String.eqb_spec k k') as [-> | Hne].
  - right. exists d. split; [reflexivity |]. intros x Hx. now right.
  - destruct IH as [-> | [d' [-> Hincl]]]; [now left |].
    right. eexists. split; [reflexivity |].
    intros x [Hx | Hx]; [now left | right; now apply Hincl].
Qed.

Lemma filter_keys_nodup (f : string * V -> bool) (d : dict V) :
  NoDup (map fst d) -> NoDup (map fst (filter f d)).
Proof.
  induction d as [| kv d IH]; intros H; simpl; [constructor |].
  inversion H as [| ? ? Hk Hd]; subst.
  destruct (f kv); [| now apply IH]. simpl. constructor; [| now apply IH].
  intros Hin. apply Hk. apply in_map_iff in Hin.
  destruct Hin as [x [Hx Hin]]. apply filter_In in Hin.
  apply in_map_iff. exists x. tauto.
Qed.

Lemma filter_key_not_in_cons (k : string) (keys : list string) (d : dict V) :
  filter (key_not_in keys) (filter (key_not_in [k]) d) =
  filter (key_not_in (k :: keys)) d.
Proof.
  induction d as [| kv d IH]; [reflexivity |]. cbn [filter].
  assert (H1 : key_not_in [k] kv = negb (String.eqb (fst kv) k))
    by (unfold key_not_in; cbn [existsb]; now rewrite orb_false_r).
  assert (H2 : key_not_in (k :: keys) kv =
               negb (String.eqb (fst kv) k) && key_not_in keys kv)
    by (unfold key_not_in; cbn [existsb]; apply negb_orb).
  rewrite H1, H2. destruct (String.eqb (fst kv) k); cbn [negb andb].
  - exact IH.
  - cbn [filter]. now rewrite IH.
Qed.

Lemma pop_each_present (keys : list string) (d : dict V) :
  NoDup keys -> NoDup (map fst d) -> incl keys (map fst d) ->
  pop_each keys d = Returns (filter (key_not_in keys) d).
Proof.
  intros Hk. revert d. induction Hk as [| k keys Hnk Hk IH]; intros d Hd Hin.
  - cbn [pop_each]. f_equal. symmetry. now apply filter_all.
  - cbn [pop_each]. rewrite dict_pop_present; [| assumption | apply Hin; now left].
    rewrite IH.
    + f_equal. apply filter_key_not_in_cons.
    + now apply filter_keys_nodup.
    + intros k' Hk'. assert (Hne : k' <> k) by (intros ->; contradiction).
      assert (Hkd : In k' (map fst d)) by (apply Hin; now right).
      apply in_map_iff in Hkd. destruct Hkd as [[k'' v] [Hf Hkd]].
      simpl in Hf. subst k''. apply in_map_iff. exists (k', v).
      split; [reflexivity |]. apply filter_In. split; [assumption |].
      unfold key_not_in. simpl.
      destruct (String.eqb_spec k' k); [contradiction | reflexivity].
Qed.

Lemma pop_each_absent (keys : list string) (d : dict V) (k : string) :
  In k keys -> ~ In k (map fst d) -> pop_each keys d = KeyError.
Proof.
  revert d. induction keys as [| k0 keys IH]; intros d Hin Hnot;
    [contradiction |].
  cbn [pop_each]. destruct (dict_pop_outcome k0 d) as [-> | [d' [Hd' Hincl]]];
    [reflexivity |].
  rewrite Hd'. destruct Hin as [-> | Hin].
  - rewrite dict_pop_absent in Hd' by assumption. discriminate.
  - apply IH; [assumption |]. intros H. apply Hnot. now apply Hincl.
Qed.

(** X15: When the dictionary of the model has the five keys, they are removed
    and the other entries are kept, in their order. *)
Theorem get_build_model_dict_keeps_others (model_kwargs : dict V)
  (Hkeys : NoDup (map fst model_kwargs))
  (Hall : incl popped_keys (map fst model_kwargs)) :
  get_build_model_dict model_kwargs =
  Returns (filter (key_not_in popped_keys) model_kwargs).
Proof.
  apply pop_each_present; [| assumption | assumption].
  unfold popped_keys.
  repeat constructor; simpl; intros H;
    repeat (destruct H as [H | H]; [discriminate H |]); exact H.
Qed.

(** X16: When one of the five keys is not in the dictionary of the model,
    [KeyError] is raised. *)
Theorem get_build_model_dict_missing_key (model_kwargs : dict V) (k : string)
  (Hk : In k popped_keys) (Hmissing : ~ In k (map fst model_kwargs)) :
  get_build_model_dict model_kwargs = KeyError.
Proof. unfold get_build_model_dict. now apply pop_each_absent with k. Qed.

End Dict.

(** *** The theorems at concrete inputs *)

Lemma AnchorCFG_boxes_roundtrip_witness :
  Forall (fun box : list Z => box <> []) [[12; 19]; [-3]; [0; 7; 1000]]%Z /\
  AnchorCFG_boxes (AnchorCFG_boxes_setter [[12; 19]; [-3]; [0; 7; 1000]]%Z) =
  Returns [[12; 19]; [-3]; [0; 7; 1000]]%Z.
Proof.
  assert (H : Forall (fun box : list Z => box <> [])
                     [[12; 19]; [-3]; [0; 7; 1000]]%Z)
    by (repeat constructor; discriminate).
  exact (conj H (AnchorCFG_boxes_roundtrip H)).
Defined.

Lemma AnchorCFG_boxes_empty_box_witness :
  In [] [[12; 19]; []]%Z /\
  AnchorCFG_boxes (AnchorCFG_boxes_setter [[12; 19]; []]%Z) = ValueError.
Proof.
  assert (H : In [] [[12; 19]; []]%Z) by (simpl; auto).
  exact (conj H (AnchorCFG_boxes_empty_box _ H)).
Defined.

Lemma get_build_model_dict_keeps_others_witness :
  let model_kwargs : dict Z :=
    [("num_classes", 80); ("_boxes", 0); ("backbone", 1); ("min_level", 4);
     ("head", 2); ("decoder", 3); ("filter", 5)]%string%Z in
  NoDup (map fst model_kwargs) /\
  incl popped_keys (map fst model_kwargs) /\
  get_build_model_dict model_kwargs =
  Returns (filter (key_not_in popped_keys) model_kwargs).
Proof.
  cbv zeta.
  assert (Hk : NoDup (map fst
             [("num_classes", 80); ("_boxes", 0); ("backbone", 1);
              ("min_level", 4); ("head", 2); ("decoder", 3);
              ("filter", 5)]%string%Z)).
  { repeat constructor; simpl; intros H;
      repeat (destruct H as [H | H]; [discriminate H |]); exact H. }
  assert (Hall : incl popped_keys (map fst
             [("num_classes", 80); ("_boxes", 0); ("backbone", 1);
              ("min_level", 4); ("head", 2); ("decoder", 3);
              ("filter", 5)]%string%Z)).
  { intros k H. unfold popped_keys in H. simpl in H. simpl.
    repeat (destruct H as [H | H]; [subst k; tauto |]). contradiction. }
  exact (conj Hk (conj Hall (get_build_model_dict_keeps_others _ Hk Hall))).
Defined.

Lemma get_build_model_dict_missing_key_witness :
  let model_kwargs : dict Z :=
    [("num_classes", 80); ("_boxes", 0); ("backbone", 1); ("decoder", 3);
     ("filter", 5)]%string%Z in
  In "head"%string popped_keys /\
  ~ In "head"%string (map fst model_kwargs) /\
  get_build_model_dict model_kwargs = KeyError.
Proof.
  cbv zeta.
  assert (Hk : In "head"%string popped_keys) by (simpl; auto).
  assert (Hm : ~ In "head"%string (map fst
             [("num_classes", 80); ("_boxes", 0); ("backbone", 1);
              ("decoder", 3); ("filter", 5)]%string%Z)).
  { simpl. intros H.
    repeat (destruct H as [H | H]; [discriminate H |]); exact H. }
  exact (conj Hk (conj Hm (get_build_model_dict_missing_key _ Hk Hm))).
Defined.

End ConfigFacts.

(** ** The further theorems at concrete inputs *)

Lemma iou_6x1_shape : has_shape 6 1 iou_6x1.
Proof. split; [reflexivity | repeat constructor]. Defined.

Lemma iou_6x1_rows : match_anchors 6 1 iou_6x1 = OK [[2; 0; 1; 3; 4]].
Proof. reflexivity. Defined.

Lemma assignment_indices_then_sentinels_witness :
  has_shape 3 2 iou_3x2 /\ match_anchors 3 2 iou_3x2 = OK rows_3x2 /\
  (1 < 2)%nat /\
  exists best : list Z,
    nth 1 rows_3x2 [] = map cast_float32 best ++ repeat sentinel (5 - 1) /\
    Z.of_nat (length best) = 1%Z /\
    Forall (fun i => (0 <= i < 3)%Z) best /\
    NoDup best /\
    non_sentinel_count (nth 1 rows_3x2 []) = 1%Z.
Proof.
  assert (Hb : (1 < 2)%nat) by lia.
  exact (conj iou_3x2_shape
           (conj iou_3x2_rows
                 (conj Hb (assignment_indices_then_sentinels
                             iou_3x2_shape iou_3x2_rows Hb)))).
Defined.

Lemma accepted_anchor_listed_or_outranked_witness :
  has_shape 6 1 iou_6x1 /\
  match_anchors 6 1 iou_6x1 = OK [[2; 0; 1; 3; 4]] /\
  (0 < 1)%nat /\ (5 < 6)%nat /\ threshold < iou_at iou_6x1 5 0 /\
  ((exists n, (n < 5)%nat /\
              nth n (nth 0 [[2; 0; 1; 3; 4]] []) sentinel =
              cast_float32 (Z.of_nat 5)) \/
   (forall n, (n < 5)%nat ->
      exists a', (a' < 6)%nat /\
        nth n (nth 0 [[2; 0; 1; 3; 4]] []) sentinel =
        cast_float32 (Z.of_nat a') /\
        iou_at iou_6x1 5 0 <= iou_at iou_6x1 a' 0)).
Proof.
  assert (Hb : (0 < 1)%nat) by lia.
  assert (Ha : (5 < 6)%nat) by lia.
  assert (Hacc : threshold < iou_at iou_6x1 5 0) by reflexivity.
  exact (conj iou_6x1_shape
           (conj iou_6x1_rows
              (conj Hb (conj Ha (conj Hacc
                 (accepted_anchor_listed_or_outranked
                    iou_6x1_shape iou_6x1_rows Hb Ha Hacc)))))).
Defined.

Lemma equal_overlaps_by_index_witness :
  has_shape 3 2 iou_3x2 /\ match_anchors 3 2 iou_3x2 = OK rows_3x2 /\
  (0 < 2)%nat /\ (0 < 1 < 5)%nat /\
  nth 0 (nth 0 rows_3x2 []) sentinel = cast_float32 (Z.of_nat 0) /\
  nth 1 (nth 0 rows_3x2 []) sentinel = cast_float32 (Z.of_nat 2) /\
  iou_at iou_3x2 0 0 == iou_at iou_3x2 2 0 /\
  (0 < 2)%nat.
Proof.
  assert (Hb : (0 < 2)%nat) by lia.
  assert (Hn : (0 < 1 < 5)%nat) by lia.
  assert (Hs : nth 0 (nth 0 rows_3x2 []) sentinel = cast_float32 (Z.of_nat 0))
    by reflexivity.
  assert (Hs' : nth 1 (nth 0 rows_3x2 []) sentinel
                = cast_float32 (Z.of_nat 2)) by reflexivity.
  assert (Heq : iou_at iou_3x2 0 0 == iou_at iou_3x2 2 0) by reflexivity.
  exact (conj iou_3x2_shape
           (conj iou_3x2_rows
              (conj Hb (conj Hn (conj Hs (conj Hs' (conj Heq
                 (@equal_overlaps_by_index 3 2 iou_3x2 rows_3x2 0 0 1 0 2
                    iou_3x2_shape iou_3x2_rows Hb Hn Hs Hs' Heq)))))))).
Defined.

Lemma assignment_independent_of_batch_witness :
  has_shape 3 2 iou_3x2 /\ match_anchors 3 2 iou_3x2 = OK rows_3x2 /\
  (1 < 2)%nat /\
  match_anchors 3 1 (map (fun r => [nth 1 r 0]) iou_3x2)
  = OK [nth 1 rows_3x2 []].
Proof.
  assert (Hb : (1 < 2)%nat) by lia.
  exact (conj iou_3x2_shape
           (conj iou_3x2_rows
                 (conj Hb (assignment_independent_of_batch
                             iou_3x2_shape iou_3x2_rows Hb)))).
Defined.

Lemma scenario_rows :
  get_best_anchor compute_iou_spec [box_centre] anchors_3 416 416 =
  OK [[1; 2; 0; -1; -1]].
Proof. reflexivity. Defined.

Lemma padded_assignments_shape_witness :
  get_best_anchor compute_iou_spec [box_centre] anchors_3 416 416 =
  OK [[1; 2; 0; -1; -1]] /\ (0 <= 3 < 2147483648)%Z /\
  has_shape (Z.to_nat 3) 5
            (pad_max_instances (item_row 5) [[1; 2; 0; -1; -1]] 3 0).
Proof.
  assert (Hm : (0 <= 3 < 2147483648)%Z) by lia.
  exact (conj scenario_rows
           (conj Hm (padded_assignments_shape compute_iou_spec [box_centre]
                       anchors_3 416 416 0 scenario_rows Hm))).
Defined.

Lemma get_best_anchor_app_witness :
  get_best_anchor compute_iou_spec [box_centre] anchors_3 416 416 =
  OK [[1; 2; 0; -1; -1]] /\
  get_best_anchor compute_iou_spec [box_centre; box_corner] anchors_3 416 416
  = OK ([[1; 2; 0; -1; -1]] ++ [[1; 2; 0; -1; -1]]).
Proof.
  exact (conj scenario_rows
           (get_best_anchor_app compute_iou_spec [box_centre] [box_corner]
              anchors_3 416 416 scenario_rows (eq_refl : get_best_anchor compute_iou_spec [box_corner] anchors_3 416 416 = OK [[1; 2; 0; -1; -1]]))).
Defined.

Lemma pad_max_instances_negative_count_witness :
  (-2147483648 <= -1 < 0)%Z /\
  pad_max_instances item_scalar [1; 2; 3]%Z (-1) 0%Z =
  firstn (length [1; 2; 3]%Z - Z.to_nat (- -1)) [1; 2; 3]%Z /\
  length (pad_max_instances item_scalar [1; 2; 3]%Z (-1) 0%Z) =
  (length [1; 2; 3]%Z - Z.to_nat (- -1))%nat.
Proof.
  assert (H : (-2147483648 <= -1 < 0)%Z) by lia.
  exact (conj H (pad_max_instances_negative_count
                   (@item_scalar Z) [1; 2; 3]%Z 0%Z H)).
Defined.

Lemma pad_max_instances_twice_witness :
  (0 <= 2 <= 5)%Z /\ (5 < 2147483648)%Z /\
  pad_max_instances item_scalar
    (pad_max_instances item_scalar [7]%Z 5 0%Z) 2 0%Z =
  pad_max_instances item_scalar [7]%Z 2 0%Z.
Proof.
  assert (H : (0 <= 2 <= 5)%Z) by lia.
  assert (Hn : (5 < 2147483648)%Z) by lia.
  exact (conj H (conj Hn (pad_max_instances_twice (@item_scalar Z) [7]%Z
                            0%Z H Hn))).
Defined.

Lemma pad_max_instances_parallel_witness :
  length [[1; 2; 3; 4]; [5; 6; 7; 8]]%Z = length [80; 81]%Z /\
  combine (pad_max_instances (item_row 4) [[1; 2; 3; 4]; [5; 6; 7; 8]]%Z
                             3 0%Z)
          (pad_max_instances item_scalar [80; 81]%Z 3 (-1)%Z) =
  pad_max_instances (fun q => (item_row 4 (fst q), item_scalar (snd q)))
    (combine [[1; 2; 3; 4]; [5; 6; 7; 8]]%Z [80; 81]%Z) 3 (0%Z, (-1)%Z).
Proof.
  assert (H : length [[1; 2; 3; 4]; [5; 6; 7; 8]]%Z = length [80; 81]%Z)
    by reflexivity.
  exact (conj H (pad_max_instances_parallel (@item_row Z 4) (@item_scalar Z)
                   [[1; 2; 3; 4]; [5; 6; 7; 8]]%Z [80; 81]%Z 3
                   0%Z (-1)%Z H)).
Defined.

Lemma translate_boxes_keeps_assignments_witness :
  (forall x y x' y' w h aw ah,
      compute_iou_spec (mkBox x y w h) (mkBox x y aw ah) =
      compute_iou_spec (mkBox x' y' w h) (mkBox x' y' aw ah)) /\
  get_best_anchor compute_iou_spec
    (translate_boxes [box_centre] (1 # 10) (-1 # 5)) anchors_3 416 416 =
  get_best_anchor compute_iou_spec [box_centre] anchors_3 416 416.
Proof.
  assert (H : forall x y x' y' w h aw ah,
             compute_iou_spec (mkBox x y w h) (mkBox x y aw ah) =
             compute_iou_spec (mkBox x' y' w h) (mkBox x' y' aw ah))
    by reflexivity.
  exact (conj H (translate_boxes_keeps_assignments compute_iou_spec
                   [box_centre] anchors_3 416 416 (1 # 10) (-1 # 5) H)).
Defined.

Lemma random_translate_zero_draw_witness :
  ((1 # 10) == 0 \/ 0 == 0) /\
  random_translate (fun image : nat => 416) (fun image _ => S image)
                   7%nat [box_centre] (1 # 10) 0 =
  (7%nat,
   map (fun b => mkBox (cx b + (1 # 10)) (cy b + 0) (bw b) (bh b))
       [box_centre]).
Proof.
  assert (H : (1 # 10) == 0 \/ 0 == 0) by (right; reflexivity).
  exact (conj H (random_translate_zero_draw (fun image : nat => 416)
                   (fun image _ => S image) 7%nat [box_centre] H)).
Defined.
